(** * Mathics3-trepan: the event dispatch and stop-decision core

    A shallow embedding of [pymathics/trepan/lib/core.py] (class
    [DebuggerCore]), [pymathics/debugger/lib/stack.py] ([count_frames]),
    [pymathics/trepan/processor/cmdproc.py] (the command loop and the
    functions around it) and [pymathics/trepan/processor/command/quit.py].

    Python objects are modelled by records, attribute assignment by
    explicit state passing, dictionaries by [gmap], raised exceptions by
    an outcome type.  Event names are strings, as in the source. *)

From Stdlib Require Import ZArith String Ascii List Bool Lia.
From stdpp Require Import base option list gmap strings pretty sorting.

Local Open Scope Z_scope.

(** ** Python values shared by all modules *)

(** A code object: [co_id] stands for the object itself (membership in
    [ignore_code] and in the trace filter), the other fields are the
    attributes the debugger reads. *)
Record code := Code {
  co_id : nat;
  co_filename : string;
  co_name : string
}.

#[local] Set Warnings "-register-all".

(** A frame object.  [f_id] is the identity of the object: Python compares
    frames with [!=] by identity.  [f_back] is the dynamic caller. *)
Inductive frame := Frame {
  f_id : nat;
  f_code : code;
  f_lineno : Z;
  f_back : option frame
}.

(** [x in xs] for a list of strings. *)
Definition str_in (x : string) (xs : list string) : bool :=
  existsb (String.eqb x) xs.

(** Truth value of an optional collection: [None] and the empty
    collection are both false. *)
Definition truthy_coll {A} (c : option (list A)) : bool :=
  match c with
  | Some (_ :: _) => true
  | _ => false
  end.

(** [needle in hay] for strings. *)
Fixpoint str_contains (needle hay : string) : bool :=
  String.prefix needle hay ||
  match hay with
  | EmptyString => false
  | String _ rest => str_contains needle rest
  end.


(** Python values, as far as the debugger inspects them: their truth value,
    whether they are a [str] or a [list], and their elements. *)
Inductive pyval :=
| PyNone
| PyBool (b : bool)
| PyInt (z : Z)
| PyStr (s : string)
| PyList (xs : list pyval).

(** [bool(v)] *)
Definition truthy (v : pyval) : bool :=
  match v with
  | PyNone => false
  | PyBool b => b
  | PyInt z => negb (z =? 0)
  | PyStr s => negb (String.eqb s EmptyString)
  | PyList xs => match xs with [] => false | _ => true end
  end.

(** The truth value of an optional string: [None] and the empty string
    are both false. *)
Definition truthy_str (s : option string) : bool :=
  match s with
  | Some s => negb (String.eqb s EmptyString)
  | None => false
  end.

(** Exception classes.  [SystemExit] and [KeyboardInterrupt] derive from
    [BaseException] only; the others derive from [Exception], and so does
    the debugger's quit signal. *)
Inductive exn :=
| DebuggerQuitException
| EOFError
| TypeError
| ValueError
| IndexError
| KeyError
| SystemError
| SystemExit
| KeyboardInterrupt
| OtherException (name : string).

(** [isinstance(e, Exception)] *)
Definition is_Exception (e : exn) : bool :=
  match e with
  | SystemExit | KeyboardInterrupt => false
  | _ => true
  end.

(** [type(e).__name__] *)
Definition exn_name (e : exn) : string :=
  match e with
  | DebuggerQuitException => "DebuggerQuitException"
  | EOFError => "EOFError"
  | TypeError => "TypeError"
  | ValueError => "ValueError"
  | IndexError => "IndexError"
  | KeyError => "KeyError"
  | SystemError => "SystemError"
  | SystemExit => "SystemExit"
  | KeyboardInterrupt => "KeyboardInterrupt"
  | OtherException name => name
  end.

(** The result of a Python call that does not touch the debugger's state:
    a value or a raised exception. *)
Inductive outcome (A : Type) :=
| Returns (a : A)
| Raises (e : exn).
Arguments Returns {A} a.
Arguments Raises {A} e.

(** ** stack.py *)
Module Stack.

(** [count_frames(frame, count_start=0)]: the loop [while frame] walks the
    [f_back] chain; the argument may be [None]. *)
Fixpoint count_frames_from (fr : frame) (count : Z) : Z :=
  match f_back fr with
  | None => count + 1
  | Some b => count_frames_from b (count + 1)
  end.

Definition count_frames (fr : option frame) (count_start : Z) : Z :=
  match fr with
  | None => - count_start
  | Some f => count_frames_from f (- count_start)
  end.

End Stack.

(** ** The breakpoint manager and the trace filter

    [core.py] imports [BreakpointManager] from [trepan.lib.breakpoint] and
    [TraceFilter] from [tracer.tracefilter]; neither is part of the
    sources of this package. *)
Module BreakpointManager.

(** Modelled from the spec: the breakpoint record of [trepan.lib.breakpoint]
    is missing.  A breakpoint is identified by its number, has a location
    (file and line), an optional condition expression, a temporary flag and
    an enabled flag. *)
Record breakpoint := Breakpoint {
  number : Z;
  bp_filename : string;
  bp_line : Z;
  temporary : bool;
  enabled : bool;
  condition : option string
}.

(** Modelled from the spec: the keys of the function index are missing.
    A function object: its identity and its [__name__]. *)
Record func := Func {
  fn_id : nat;
  fn_name : string
}.

(** Modelled from the spec: the manager class is missing.  It maps
    (file, line) and functions to breakpoint records.  [fnlist] is iterated
    in insertion order by [is_break_here], so it is an association list. *)
Record t := Mgr {
  bplist : gmap (string * Z) (list breakpoint);
  fnlist : list (func * list breakpoint)
}.

(** Breakpoint objects are told apart by their number. *)
Definition same_bp (a b : breakpoint) : bool := number a =? number b.

(** [l.remove(bp)] *)
Definition remove_bp (bp : breakpoint) (l : list breakpoint) : list breakpoint :=
  List.filter (fun b => negb (same_bp bp b)) l.

(** Modelled from the spec: [delete_breakpoint] is missing.  Deleting a
    breakpoint removes its record from both indexes; a location or function
    left without breakpoints is dropped. *)
Definition delete_breakpoint (bp : breakpoint) (m : t) : t :=
  let key := (bp_filename bp, bp_line bp) in
  let bpl :=
    match bplist m !! key with
    | None => bplist m
    | Some l =>
        match remove_bp bp l with
        | [] => delete key (bplist m)
        | l' => <[key := l']> (bplist m)
        end
    end in
  Mgr bpl
      (List.filter (fun '(_, l) => match l with [] => false | _ => true end)
         (List.map (fun '(fn, l) => (fn, remove_bp bp l)) (fnlist m))).

Section FindBp.
(** [eval(expr, frame.f_globals, frame.f_locals)] *)
Variable py_eval : string -> frame -> outcome pyval.

(** Modelled from the spec: the body of [find_bp] is missing.  It returns
    the breakpoint that is triggered at a location together with a flag telling
    whether a temporary breakpoint may be deleted: the first enabled
    breakpoint that is unconditional or whose condition holds, with the
    flag set; a breakpoint whose condition fails to evaluate is reported as
    well (stop anyway), with the flag cleared. *)
Fixpoint find_in (possibles : list breakpoint) (fr : frame)
  : option breakpoint * bool :=
  match possibles with
  | [] => (None, false)
  | b :: rest =>
      if negb (enabled b) then find_in rest fr
      else match condition b with
           | None => (Some b, true)
           | Some c =>
               match py_eval c fr with
               | Returns v => if truthy v then (Some b, true) else find_in rest fr
               | Raises _ => (Some b, false)
               end
           end
  end.

(** Modelled from the spec: [find_bp(filename, lineno, frame)] scans the
    breakpoints recorded for the location. *)
Definition find_bp (m : t) (filename : string) (lineno : Z) (fr : frame)
  : option breakpoint * bool :=
  find_in (default [] (bplist m !! (filename, lineno))) fr.
End FindBp.

End BreakpointManager.

Module TraceFilter.

(** Modelled from the spec: the filter class of the [tracer] package is
    missing.  It decides whether a frame belongs to code that is excluded
    from tracing; the excluded code objects are kept in a set. *)
Record t := Filter {
  excluded_f_code : gset nat
}.

(** Modelled from the spec: [is_excluded(frame)] looks the frame's code
    object up in the set. *)
Definition is_excluded (f : t) (fr : frame) : bool :=
  bool_decide (co_id (f_code fr) ∈ excluded_f_code f).

End TraceFilter.

(** ** core.py: canonic file names *)
Module FileNames.

(** The attributes of [DebuggerCore] that [canonic] reads or writes. *)
Record names := Names {
  filename_cache : gmap string string;
  main_dirname : string;
  search_path : list string
}.

(** What [canonic] asks of the file system: [osp.abspath], [osp.join],
    [osp.isfile], [Mclifns.search_file] (a path or [None]), [osp.realpath]
    and [osp.normcase]. *)
Record file_system := FileSystem {
  abspath : string -> string;
  join : string -> string -> string;
  isfile : string -> bool;
  search_file : string -> list string -> string -> option string;
  realpath : string -> string;
  normcase : string -> string
}.

(** [s.split(sep)[0]]: the characters before the first separator. *)
Fixpoint lead (sep : ascii) (s : string) : string :=
  match s with
  | EmptyString => EmptyString
  | String a rest =>
      if Ascii.eqb a sep then EmptyString else String a (lead sep rest)
  end.

(** [filename == "<" + filename[1:-1] + ">"] *)
Definition is_bracketed (filename : string) : bool :=
  String.eqb filename
    ("<" +:+ substring 1 (String.length filename - 2)%nat filename +:+ ">").

Section Canonic.
(** [os.sep] *)
Variable sep : ascii.
(** [pyficache.unmap_file], or [None] when [pyficache] is [None]. *)
Variable unmap_file : option (string -> string).

(** [canonic(self, filename)] *)
Definition canonic (fs : file_system) (filename : string) (st : names)
  : string * names :=
  if is_bracketed filename then (filename, st)
  else
    let cached := filename_cache st !! filename in
    let '(canonic, st') :=
      if truthy_str cached then (default EmptyString cached, st)
      else
        let lead_dir := lead sep filename in
        let canonic :=
          if String.eqb lead_dir "." || String.eqb lead_dir ".."
          then abspath fs (join fs (main_dirname st) filename)
          else abspath fs filename in
        let canonic :=
          if negb (isfile fs canonic) then
            let found :=
              search_file fs filename (search_path st) (main_dirname st) in
            if truthy_str found then default EmptyString found
            else filename
          else canonic in
        let canonic := realpath fs (normcase fs canonic) in
        (canonic,
         Names (<[filename := canonic]> (filename_cache st))
           (main_dirname st) (search_path st)) in
    (match unmap_file with
     | Some unmap => unmap canonic
     | None => canonic
     end, st').

(** [canonic_filename(self, frame)] *)
Definition canonic_filename (fs : file_system) (fr : frame) (st : names)
  : string * names :=
  canonic fs (co_filename (f_code fr)) st.
End Canonic.

End FileNames.

(** ** core.py: the stop-decision engine *)
Module Core.

(** The attributes of [DebuggerCore] read or written by the stop-decision
    engine. *)
Record stop_state := StopState {
  (* What events are considered in stepping. Note: 'None' means *all*. *)
  step_events : option (list string);
  (* How many step events to skip; 0 stops at the next one, a negative
     number indicates no eventual stopping. *)
  step_ignore : Z;
  (* identity of the last frame seen, and its cached depth *)
  last_frame : option nat;
  last_level : Z;
  stop_level : option Z;
  stop_on_finish : bool;
  last_lineno : option Z;
  last_filename : option string;
  (* [None], [False] or [True] in the source; only its truth value is used *)
  different_line : bool;
  stop_reason : string
}.

Definition set_step_ignore (n : Z) (s : stop_state) : stop_state :=
  StopState (step_events s) n (last_frame s) (last_level s) (stop_level s)
    (stop_on_finish s) (last_lineno s) (last_filename s) (different_line s)
    (stop_reason s).

Definition set_last_position (l : Z) (f : string) (s : stop_state) : stop_state :=
  StopState (step_events s) (step_ignore s) (last_frame s) (last_level s)
    (stop_level s) (stop_on_finish s) (Some l) (Some f) (different_line s)
    (stop_reason s).

Definition set_last_frame (id : nat) (lvl : Z) (s : stop_state) : stop_state :=
  StopState (step_events s) (step_ignore s) (Some id) lvl (stop_level s)
    (stop_on_finish s) (last_lineno s) (last_filename s) (different_line s)
    (stop_reason s).

Definition set_stop_level (l : option Z) (s : stop_state) : stop_state :=
  StopState (step_events s) (step_ignore s) (last_frame s) (last_level s) l
    (stop_on_finish s) (last_lineno s) (last_filename s) (different_line s)
    (stop_reason s).

Definition set_stop_reason (r : string) (s : stop_state) : stop_state :=
  StopState (step_events s) (step_ignore s) (last_frame s) (last_level s)
    (stop_level s) (stop_on_finish s) (last_lineno s) (last_filename s)
    (different_line s) r.

(** The values [__init__] gives these attributes. *)
Definition init_stop_state (step_ignore0 : Z) : stop_state :=
  StopState None step_ignore0 None 10000 None false None None false EmptyString.

(** [_is_step_next_stop(self, event)] *)
Definition _is_step_next_stop (s : stop_state) (event : string)
  : bool * stop_state :=
  if truthy_coll (step_events s)
     && negb (str_in event (default [] (step_events s)))
  then (false, s)
  else if step_ignore s =? 0 then (true, s)
  else if step_ignore s >? 0 then (false, set_step_ignore (step_ignore s - 1) s)
  else (false, s).

(** [self.last_lineno == lineno and self.last_filename == filename] *)
Definition same_position (s : stop_state) (fr : frame) : bool :=
  match last_lineno s, last_filename s with
  | Some l, Some f =>
      (l =? f_lineno fr) && String.eqb f (co_filename (f_code fr))
  | _, _ => false
  end.

(** [frame and frame != self.last_frame]: a frame object is always true,
    and frames are compared by identity. *)
Definition frame_changed (s : stop_state) (fr : frame) : bool :=
  match last_frame s with
  | Some id => negb (Nat.eqb id (f_id fr))
  | None => true
  end.

(** [count_frames(frame)]: [core.py] imports the function from
    [trepan.lib.stack], a package that is not part of the sources, so the
    engine takes it as a parameter: what it answers for a frame. *)
Class FrameCount := count_frames : frame -> Z.

(** The part of [is_stop_here] that recomputes the stack depth. *)
Definition recompute_level `{FrameCount} (s : stop_state) (fr : frame)
  : stop_state :=
  if frame_changed s fr
  then set_last_frame (f_id fr) (count_frames fr) s
  else s.

(** [event in ["return", "c_return"]] *)
Definition return_class (event : string) : bool :=
  str_in event ["return"; "c_return"].

(** The end of [is_stop_here], under the comment [# Check for stepping] *)
Definition check_stepping (s : stop_state) (event : string)
  : bool * stop_state :=
  let r := _is_step_next_stop s event in
  if fst r then (true, set_stop_reason "at a stepping statement" (snd r))
  else (false, snd r).

(** [is_stop_here(self, frame, event)] *)
Definition is_stop_here `{FrameCount} (s : stop_state) (fr : frame)
    (event : string) : bool * stop_state :=
  let lineno := f_lineno fr in
  let filename := co_filename (f_code fr) in
  if different_line s && String.eqb event "line" && same_position s fr
  then (false, s)
  else
    let s1 := set_last_position lineno filename s in
    match stop_level s1 with
    | Some lvl =>
        let s2 := recompute_level s1 fr in
        if last_level s2 >? lvl then (false, s2)
        else if (last_level s2 =? lvl) && stop_on_finish s2
                && return_class event
        then (true, set_stop_reason "in return for 'finish' command"
                      (set_stop_level None s2))
        else check_stepping s2 event
    | None => check_stepping s1 event
    end.

(** *** The whole [DebuggerCore] object *)

(** The [arg] of the trace callback, by the shapes [trace_dispatch] takes
    apart. *)
Inductive pyarg :=
  (* a pair [(callable, call_args)] or [(file_path, call_args)]; [name] is
     the callable's [__name__] (for a bound method that of its [__func__])
     or the path *)
| ArgPair (name : string) (call_args : pyval)
  (* the triple [(name, callable, call_args)] that [trace_dispatch] stores *)
| ArgNamed (name : string) (call_args : pyval)
  (* the 5-tuple [(expr, _, status, orig_expr, _)]: [expr.get_name()],
     [orig_expr.get_name(short=True)], [orig_expr.get_name(short=False)],
     and what the host's [skip_trivial_evaluation(expr, status, orig_expr)]
     answers *)
| ArgEvaluation (expr_name orig_short orig_full : string) (trivial : bool)
  (* anything else *)
| ArgValue (v : pyval).

(** [a, b = arg] *)
Definition unpack_pair (a : pyarg) : outcome (string * pyval) :=
  match a with
  | ArgPair name call_args => Returns (name, call_args)
  | ArgNamed _ _ | ArgEvaluation _ _ _ _ => Raises ValueError
  | ArgValue _ => Raises TypeError
  end.

(** [expr, _, status, orig_expr, _ = arg] *)
Definition unpack_evaluation (a : pyarg)
  : outcome (string * string * string * bool) :=
  match a with
  | ArgEvaluation e os ofull t => Returns (e, os, ofull, t)
  | ArgPair _ _ | ArgNamed _ _ => Raises ValueError
  | ArgValue _ => Raises TypeError
  end.

(** The entries of [self.debugger.settings] that [trace_dispatch] reads. *)
Record settings := Settings {
  trace : bool;
  printset : list string;
  events : option (list string)
}.

Record core := DebuggerCore {
  bpmgr : BreakpointManager.t;
  current_bp : option BreakpointManager.breakpoint;
  event : option string;
  (* [self.arg]; the attribute does not exist before the first assignment *)
  arg : option pyarg;
  execution_status : string;
  ignore_code : gset nat;
  ignore_filter : option TraceFilter.t;
  until_condition : option string;
  (* the attributes of the stop-decision engine *)
  engine : stop_state;
  dbg_settings : settings;
  (* [filename_cache], [main_dirname] and [search_path] *)
  file_names : FileNames.names
}.

Definition set_event (e : option string) (c : core) : core :=
  DebuggerCore (bpmgr c) (current_bp c) e (arg c) (execution_status c)
    (ignore_code c) (ignore_filter c) (until_condition c) (engine c)
    (dbg_settings c) (file_names c).

Definition set_arg (a : pyarg) (c : core) : core :=
  DebuggerCore (bpmgr c) (current_bp c) (event c) (Some a) (execution_status c)
    (ignore_code c) (ignore_filter c) (until_condition c) (engine c)
    (dbg_settings c) (file_names c).

Definition set_bpmgr (m : BreakpointManager.t) (c : core) : core :=
  DebuggerCore m (current_bp c) (event c) (arg c) (execution_status c)
    (ignore_code c) (ignore_filter c) (until_condition c) (engine c)
    (dbg_settings c) (file_names c).

Definition set_current_bp (b : BreakpointManager.breakpoint) (c : core) : core :=
  DebuggerCore (bpmgr c) (Some b) (event c) (arg c) (execution_status c)
    (ignore_code c) (ignore_filter c) (until_condition c) (engine c)
    (dbg_settings c) (file_names c).

Definition set_engine (s : stop_state) (c : core) : core :=
  DebuggerCore (bpmgr c) (current_bp c) (event c) (arg c) (execution_status c)
    (ignore_code c) (ignore_filter c) (until_condition c) s
    (dbg_settings c) (file_names c).

Definition set_file_names (st : FileNames.names) (c : core) : core :=
  DebuggerCore (bpmgr c) (current_bp c) (event c) (arg c) (execution_status c)
    (ignore_code c) (ignore_filter c) (until_condition c) (engine c)
    (dbg_settings c) st.

(** [self.event in xs] *)
Definition event_in (c : core) (xs : list string) : bool :=
  match event c with
  | Some e => str_in e xs
  | None => false
  end.

(** What a call of [trace_dispatch] hands back to the tracer: the core
    object itself (keep tracing), [None], or the value the command processor
    produced. *)
Inductive token :=
| TokSelf
| TokNone
| TokValue (v : pyval).

(** What a call of [trace_dispatch] does besides changing the core. *)
Inductive effect :=
| Printed (s : string)
| ProcessorCall (fr : frame) (ev : string) (a : pyarg).

Record dispatched := Dispatched {
  d_token : outcome token;
  d_core : core;
  d_effects : list effect
}.

Section Dispatch.
(** What [self.canonic] depends on: [os.sep], [pyficache.unmap_file] and
    the file system. *)
Variable sep : ascii.
Variable unmap_file : option (string -> string).
Variable fs : FileNames.file_system.
(** [eval(expr, frame.f_globals, frame.f_locals)] *)
Variable py_eval : string -> frame -> outcome pyval.
(** [self.processor.event_processor(frame, event, arg)]: the interactive
    command loop; it has a reference to the core and may change it. *)
Variable event_processor :
  frame -> string -> pyarg -> core -> outcome pyval * core.
(** [pymathics.trepan.tracing.event_filters] *)
Variable event_filters : gmap string (list string).

(** [self.canonic(filename)]: the canonic name, and the core with the
    cache as [canonic] leaves it. *)
Definition canonic (filename : string) (c : core) : string * core :=
  let r := FileNames.canonic sep unmap_file fs filename (file_names c) in
  (fst r, set_file_names (snd r) c).

(** The loop over [self.bpmgr.fnlist] of [is_break_here]: the breakpoints
    of the first function whose [__name__] is [find_name]. *)
Fixpoint scan_fnlist (find_name : string)
    (l : list (BreakpointManager.func * list BreakpointManager.breakpoint))
  : option (list BreakpointManager.breakpoint) :=
  match l with
  | [] => None
  | (fn, bps) :: rest =>
      if String.eqb (BreakpointManager.fn_name fn) find_name then Some bps
      else scan_fnlist find_name rest
  end.

(** What [is_break_here] does once it has found the breakpoint [bp]: it
    records it as [current_bp], deletes it when [delete] holds, and sets
    [stop_reason] and [event].  [kind] is "call" or "line". *)
Definition hit (kind : string) (bp : BreakpointManager.breakpoint)
    (delete : bool) (c : core) : core :=
  let c1 := set_current_bp bp c in
  let msg := if delete then "temporary " else EmptyString in
  let c2 := if delete
            then set_bpmgr (BreakpointManager.delete_breakpoint bp (bpmgr c1)) c1
            else c1 in
  let reason := "at " +:+ msg +:+ kind +:+ " breakpoint "
                +:+ pretty (BreakpointManager.number bp) in
  set_event (Some "brkpt") (set_engine (set_stop_reason reason (engine c2)) c2).

(** [is_break_here(self, frame)] *)
Definition is_break_here (c : core) (fr : frame) : outcome bool * core :=
  let filename := fst (canonic (co_filename (f_code fr)) c) in
  (* from here on the core is the one [canonic] left *)
  let c := snd (canonic (co_filename (f_code fr)) c) in
  let line_check :=
    if bool_decide ((filename, f_lineno fr) ∈ dom (BreakpointManager.bplist (bpmgr c)))
    then
      match BreakpointManager.find_bp py_eval (bpmgr c) filename (f_lineno fr) fr with
      | (Some bp, clear_bp) =>
          (Returns true,
           hit "line" bp (clear_bp && BreakpointManager.temporary bp) c)
      | (None, _) => (Returns false, c)
      end
    else (Returns false, c) in
  if bool_decide (event c = Some "call") then
    match scan_fnlist (co_name (f_code fr)) (BreakpointManager.fnlist (bpmgr c)) with
    | Some [] => (Raises IndexError, c)
    | Some (bp :: _) =>
        (Returns true, hit "call" bp (BreakpointManager.temporary bp) c)
    | None => line_check
    end
  else line_check.

(** [matches_condition(self, frame)]; without a condition [eval] raises
    [TypeError], which the handler catches like any other [Exception]. *)
Definition matches_condition (c : core) (fr : frame) : outcome pyval :=
  match until_condition c with
  | Some cond =>
      match py_eval cond fr with
      | Returns val => Returns val
      | Raises e => if is_Exception e then Returns (PyBool false) else Raises e
      end
  | None => Returns (PyBool false)
  end.

(** The truth value of [event_filter], when it is not [None]. *)
Definition truthy_filter (f : list string) : bool :=
  match f with [] => false | _ => true end.

(** [x not in event_filter and event_filter] *)
Definition filtered_out (x : string) (event_filter : list string) : bool :=
  negb (str_in x event_filter) && truthy_filter event_filter.

Definition backquote : string := String "`" EmptyString.

(** The per-event-type filtering of [trace_dispatch]: [None] when the
    event goes on to the command processor, otherwise what is returned at
    once. *)
Definition filter_event (c : core) (fr : frame) (ev : string) (a : pyarg)
    (event_filter : list string) : option dispatched * core :=
  let drop c' := (Some (Dispatched (Returns TokNone) c' []), c') in
  let fail e := (Some (Dispatched (Raises e) c []), c) in
  if String.eqb ev "mpmath" && truthy_filter event_filter then
    match unpack_pair a with
    | Raises e => fail e
    | Returns (mpmath_name, call_args) =>
        if filtered_out mpmath_name event_filter then drop c
        else (None, set_arg (ArgNamed mpmath_name call_args) c)
    end
  else if String.eqb ev "SymPy" then
    match unpack_pair a with
    | Raises e => fail e
    | Returns (sympy_name, call_args) =>
        if filtered_out sympy_name event_filter then drop c
        else (None, set_arg (ArgNamed sympy_name call_args) c)
    end
  else if String.eqb ev "Get" then
    match unpack_pair a with
    | Raises e => fail e
    | Returns (file_path, _) =>
        if filtered_out file_path event_filter then drop c else (None, c)
    end
  else if String.eqb ev "evaluate-result" then
    if bool_decide (co_id (f_code fr) ∈ ignore_code c) then drop c
    else match unpack_evaluation a with
         | Raises e => fail e
         | Returns (_, orig_short, orig_full, trivial) =>
             let use_short :=
               forallb (fun name => negb (str_contains backquote name))
                       event_filter in
             let orig_name := if use_short then orig_short else orig_full in
             if truthy_filter event_filter && negb (str_in orig_name event_filter)
             then drop c
             else if trivial then drop c
             else (None, c)
         end
  else if String.eqb ev "evaluate-entry" then
    if bool_decide (co_id (f_code fr) ∈ ignore_code c) then drop c
    else match unpack_evaluation a with
         | Raises e => fail e
         | Returns (expr_name, _, _, trivial) =>
             if truthy_filter event_filter && negb (str_in expr_name event_filter)
             then drop c
             else if trivial then drop c
             else (None, c)
         end
  else
    (Some (Dispatched (Returns TokNone) c
             [Printed ("FIXME: Unhandled event " +:+ ev)]), c).

(** The last statement of [trace_dispatch]. *)
Definition hand_over (log : list effect) (c : core) (fr : frame) (ev : string)
    (a : pyarg) : dispatched :=
  let '(r, c') := event_processor fr ev a c in
  let log' := log ++ [ProcessorCall fr ev a] in
  match r with
  | Returns v => Dispatched (Returns (TokValue v)) c' log'
  | Raises e => Dispatched (Raises e) c' log'
  end.

(** [trace_dispatch(self, frame, event, arg)] from the test of
    [until_condition] on. *)
Definition dispatch_gates (log : list effect) (c : core) (fr : frame)
    (ev : string) (a : pyarg) : dispatched :=
  let keep := Dispatched (Returns TokSelf) c log in
  let after_condition :=
    match events (dbg_settings c) with
    | None => keep
    | Some trace_event_set =>
        if negb (event_in c trace_event_set) then keep
        else
          let event_filter := event_filters !! ev in
          let c1 := set_arg a c in
          match event_filter with
          | Some flt =>
              match filter_event c1 fr ev a flt with
              | (Some d, _) =>
                  Dispatched (d_token d) (d_core d) (log ++ d_effects d)
              | (None, c2) => hand_over log c2 fr ev a
              end
          | None => hand_over log c1 fr ev a
          end
    end in
  if truthy_str (until_condition c) then
    match matches_condition c fr with
    | Raises e => Dispatched (Raises e) c log
    | Returns val => if negb (truthy val) then keep else after_condition
    end
  else after_condition.

(** [trace_dispatch(self, frame, event, arg)] *)
Definition trace_dispatch (c : core) (fr : frame) (ev : string) (a : pyarg)
  : dispatched :=
  if match ignore_filter c with
     | Some flt => TraceFilter.is_excluded flt fr
     | None => false
     end
  then Dispatched (Returns TokSelf) c []
  else
    let c1 := set_event (Some ev) c in
    if trace (dbg_settings c1) && event_in c1 (printset (dbg_settings c1))
    then
      (* [self.event] is [event], assigned just above *)
      let '(r, c2) := event_processor fr ev a c1 in
      let log := [ProcessorCall fr ev a] in
      match r with
      | Raises e => Dispatched (Raises e) c2 log
      | Returns _ => dispatch_gates log c2 fr ev a
      end
    else dispatch_gates [] c1 fr ev a.

End Dispatch.

End Core.

(** ** cmdproc.py: the command loop *)
Module CmdProc.

(** *** Python string methods, on ASCII strings *)

(** [str.isspace] of one character *)
Definition py_isspace (a : ascii) : bool :=
  let n := nat_of_ascii a in
  ((9 <=? n) && (n <=? 13) || (28 <=? n) && (n <=? 32))%nat.

Fixpoint lstrip (s : string) : string :=
  match s with
  | String a rest => if py_isspace a then lstrip rest else s
  | EmptyString => EmptyString
  end.

Definition rstrip (s : string) : string :=
  String.rev (lstrip (String.rev s)).

Definition strip (s : string) : string := rstrip (lstrip s).

(** [s.split()]: the maximal runs of non-space characters.  [word] is the
    run being read, reversed. *)
Fixpoint split_from (word : string) (s : string) : list string :=
  let flush := match word with
               | EmptyString => []
               | _ => [String.rev word]
               end in
  match s with
  | EmptyString => flush
  | String a rest =>
      if py_isspace a then flush ++ split_from EmptyString rest
      else split_from (String a word) rest
  end.

Definition split (s : string) : list string := split_from EmptyString s.

Definition lower_char (a : ascii) : ascii :=
  let n := nat_of_ascii a in
  if ((65 <=? n) && (n <=? 90))%nat then ascii_of_nat (n + 32) else a.

Fixpoint lower (s : string) : string :=
  match s with
  | EmptyString => EmptyString
  | String a rest => String (lower_char a) (lower rest)
  end.

(** [s[n:]] *)
Fixpoint str_drop (n : nat) (s : string) : string :=
  match n, s with
  | S k, String _ rest => str_drop k rest
  | _, _ => s
  end.

(** *** [arg_split] *)
Section ArgSplit.
(** [list(lex)] for [lex = shlex.shlex(s, posix=False)] with
    [whitespace_split] set: the tokens of the standard library's lexer,
    which raises on an unbalanced quote. *)
Variable shlex_tokens : string -> outcome (list string).

(** [args_list[-1].append(arg)] *)
Fixpoint append_to_last (args_list : list (list string)) (arg : string)
  : list (list string) :=
  match args_list with
  | [] => []
  | [l] => [l ++ [arg]]
  | l :: rest => l :: append_to_last rest arg
  end.

Definition arg_split (s : string) : outcome (list (list string)) :=
  match shlex_tokens s with
  | Raises e => Raises e
  | Returns args =>
      Returns (fold_left
                 (fun args_list arg =>
                    if String.eqb ";;" arg then args_list ++ [[]]
                    else append_to_last args_list arg)
                 args [[]])
  end.
End ArgSplit.

(** *** The state of the command processor *)

(** An interface of [self.intf]: the lines it still has to deliver (reading
    past them raises [EOFError]), whether it is interactive, and whether it
    has an output channel. *)
Record interface := Interface {
  input : list string;
  interactive : bool;
  output : bool
}.

(** A thread in [threading.enumerate()]: its name, whether it is found in
    [threading._active], and what [PyThreadState_SetAsyncExc] answers for
    it. *)
Record thread := Thread {
  t_id : nat;
  t_name : string;
  t_active : bool;
  t_async_ret : Z
}.

(** What the processor writes or does to its surroundings. *)
Inductive output_event :=
| ErrMsg (s : string)
  (* [errmsg(prefix + repr(v))] *)
| ErrMsgRepr (prefix : string) (v : pyval)
  (* [errmsg(Mmisc.wrapped_lines(part1, part2, width))] *)
| ErrMsgWrapped (part1 part2 : string) (width : Z)
| PrintVal (v : pyval)
| WriteLine (s : string)
  (* [self.exec_line(line)] *)
| ExecLine (line : string)
  (* [self.setup()], [print_event_location(self)], [print_location(self)] *)
| Setup
| PrintEventLocation
| PrintLocation
  (* [self.debugger.core.stop()] *)
| CoreStop
  (* [PyThreadState_SetAsyncExc(tid, exception)] and [(tid, 0)] *)
| AsyncRaise (tid : nat)
| AsyncClear (tid : nat).

(** A macro: the callable [self.macros[name][0]], applied to the words
    after the macro name. *)
Definition macro := list string -> outcome pyval.

(** The parts of the processor and of its debugger that the command loop
    only reads. *)
Record config := Config {
  macros : gmap string macro;
  aliases : gmap string string;
  debugmacro : bool;
  autoeval : bool;
  width : Z;
  (* [self.frame] *)
  proc_frame : option frame;
  (* [threading.enumerate()], [threading.current_thread()] *)
  threads : list thread;
  current_thread : nat;
  from_ipython : bool
}.

Record proc := Proc {
  cmd_queue : list string;
  last_command : option string;
  current_command : string;
  cmd_name : string;
  cmd_argstr : string;
  intf : list interface;
  continue_running : bool;
  (* [self.core.execution_status] *)
  execution_status : string;
  (* everything written so far, oldest first *)
  out : list output_event;
  cfg : config
}.

Definition set_cmd_queue (q : list string) (p : proc) : proc :=
  Proc q (last_command p) (current_command p) (cmd_name p) (cmd_argstr p)
    (intf p) (continue_running p) (execution_status p) (out p) (cfg p).

Definition set_last_command (c : option string) (p : proc) : proc :=
  Proc (cmd_queue p) c (current_command p) (cmd_name p) (cmd_argstr p)
    (intf p) (continue_running p) (execution_status p) (out p) (cfg p).

Definition set_current_command (c : string) (p : proc) : proc :=
  Proc (cmd_queue p) (last_command p) c (cmd_name p) (cmd_argstr p)
    (intf p) (continue_running p) (execution_status p) (out p) (cfg p).

Definition set_cmd_name (n : string) (p : proc) : proc :=
  Proc (cmd_queue p) (last_command p) (current_command p) n (cmd_argstr p)
    (intf p) (continue_running p) (execution_status p) (out p) (cfg p).

Definition set_cmd_argstr (a : string) (p : proc) : proc :=
  Proc (cmd_queue p) (last_command p) (current_command p) (cmd_name p) a
    (intf p) (continue_running p) (execution_status p) (out p) (cfg p).

Definition set_intf (i : list interface) (p : proc) : proc :=
  Proc (cmd_queue p) (last_command p) (current_command p) (cmd_name p)
    (cmd_argstr p) i (continue_running p) (execution_status p) (out p) (cfg p).

Definition set_continue_running (b : bool) (p : proc) : proc :=
  Proc (cmd_queue p) (last_command p) (current_command p) (cmd_name p)
    (cmd_argstr p) (intf p) b (execution_status p) (out p) (cfg p).

Definition set_execution_status (s : string) (p : proc) : proc :=
  Proc (cmd_queue p) (last_command p) (current_command p) (cmd_name p)
    (cmd_argstr p) (intf p) (continue_running p) s (out p) (cfg p).

Definition emit (o : output_event) (p : proc) : proc :=
  Proc (cmd_queue p) (last_command p) (current_command p) (cmd_name p)
    (cmd_argstr p) (intf p) (continue_running p) (execution_status p)
    (out p ++ [o]) (cfg p).

Definition errmsg (s : string) (p : proc) : proc := emit (ErrMsg s) p.

(** The result of a method of the processor: a value, a raised exception,
    or no result within the given number of loop iterations. *)
Inductive result (A : Type) :=
| Ret (a : A) (p : proc)
| Exc (e : exn) (p : proc)
| OutOfFuel.
Arguments Ret {A} a p.
Arguments Exc {A} e p.
Arguments OutOfFuel {A}.

Definition bind {A B} (r : result A) (k : A -> proc -> result B) : result B :=
  match r with
  | Ret a p => k a p
  | Exc e p => Exc e p
  | OutOfFuel => OutOfFuel
  end.

Notation "'do' ( x , p ) <- r ; k" := (bind r (fun x p => k))
  (at level 10, x name, p name, r at level 100, k at level 200).

(** A debugger command: the attributes [ok_for_running] reads, and [run].
    [execution_set] is [None] when the command has no such attribute. *)
Record command := Command {
  min_args : Z;
  max_args : option Z;
  need_stack : bool;
  execution_set : option (list string);
  run : list string -> proc -> result pyval
}.

(** A hook: [hook(obj)]. *)
Definition hook := proc -> result pyval.

(** The command table and the hook lists, filled when the processor is
    created. *)
Record env := Env {
  commands : gmap string command;
  preloop_hooks : list hook;
  precmd_hooks : list hook;
  postcmd_hooks : list hook
}.

(** *** The methods *)

(** [resolve_name(obj, command_name)] *)
Definition resolve_name (e : env) (p : proc) (command_name : string)
  : option string :=
  if bool_decide (lower command_name ∈ dom (commands e)) then
    Some (lower command_name)
  else
    match aliases (cfg p) !! command_name with
    | Some target => Some (lower target)
    | None => None
    end.

(** [run_hooks(obj, hooks)] *)
Fixpoint run_hooks (hooks : list hook) (p : proc) : result bool :=
  match hooks with
  | [] => Ret false p
  | h :: rest =>
      do (v, p1) <- h p;
      if truthy v then Ret true p1 else run_hooks rest p1
  end.

(** [ok_for_running(self, cmd_obj, name, nargs)] *)
Definition ok_for_running (cmd_obj : command) (name : string) (nargs : Z)
    (p : proc) : bool * proc :=
  let quoted := "Command '" +:+ name +:+ "'" in
  if match execution_set cmd_obj with
     | Some allowed => negb (str_in (execution_status p) allowed)
     | None => false
     end
  then (false,
        emit (ErrMsgWrapped (quoted +:+ " is not available for execution status:")
                (execution_status p) (width (cfg p))) p)
  else if bool_decide (proc_frame (cfg p) = None) && need_stack cmd_obj
  then (false, errmsg (quoted +:+ " needs an execution stack.") p)
  else if nargs <? min_args cmd_obj
  then (false,
        errmsg (quoted +:+ " needs at least " +:+ pretty (min_args cmd_obj)
                +:+ " argument(s); got " +:+ pretty nargs +:+ ".") p)
  else match max_args cmd_obj with
       | Some most =>
           if nargs >? most
           then (false,
                 errmsg (quoted +:+ " can take at most " +:+ pretty most
                         +:+ " argument(s); got " +:+ pretty nargs +:+ ".") p)
           else (true, p)
       | None => (true, p)
       end.

(** [self.intf[-1]] *)
Definition top_intf (p : proc) : option interface := last (intf p).

(** [self.intf[-1].read_command(self.prompt_str)] *)
Definition read_command (p : proc) : result string :=
  match top_intf p with
  | None => Exc IndexError p
  | Some i =>
      match input i with
      | [] => Exc EOFError p
      | line :: rest =>
          Ret line
              (set_intf (removelast (intf p)
                         ++ [Interface rest (interactive i) (output i)]) p)
      end
  end.

Definition top_interactive (p : proc) : bool :=
  match top_intf p with
  | Some i => interactive i
  | None => false
  end.

(** The first statement of [process_command]: the next command comes from
    the queue when there is one, else from the top interface.  The result
    is [None] when an empty line repeats a [last_command] that is [None]. *)
Definition next_command (p : proc) : result (option string) :=
  match cmd_queue p with
  | first :: rest => Ret (Some (strip first)) (set_cmd_queue rest p)
  | [] =>
      do (line, p1) <- read_command p;
      let current := strip line in
      if String.eqb EmptyString current && top_interactive p1
      then Ret (last_command p1) p1
      else Ret (Some current) p1
  end.

Definition is_str (v : pyval) : bool :=
  match v with PyStr _ => true | _ => false end.

(** The traceback text of [traceback.format_exc()] is represented by the
    name of the exception class. *)
Definition format_exc (e : exn) : string := exn_name e.

(** How one pass of the [for args in args_list] loop ends: the loop goes
    on (with the current value of the local [current_command]), or
    [process_command] returns. *)
Inductive flow :=
| Continue (current : string)
| Return (v : pyval).

(** The [while True] loop of [process_command] that expands macros.  The
    result is [None] when the loop leaves [process_command] by
    [return False], else the words and the command line after expansion.
    Line 937, [self.cmd_queue + [current_command[1:]]], builds a list and
    drops it: [discarded] below; the queue is not assigned. *)
Fixpoint expand_macros (fuel : nat) (args : list string) (current : string)
    (p : proc) : result (option (list string * string)) :=
  match fuel with
  | O => OutOfFuel
  | S fuel' =>
      match args with
      | [] => Ret None p
      | macro_cmd_name :: rest =>
          match macros (cfg p) !! macro_cmd_name with
          | None => Ret (Some (args, current)) p
          | Some m =>
              match m rest with
              | Raises TypeError =>
                  Ret None (errmsg ("Error expanding macro " +:+ macro_cmd_name) p)
              | Raises e => Exc e p
              | Returns expansion =>
                  let p1 := if debugmacro (cfg p)
                            then emit (PrintVal expansion) p else p in
                  match expansion with
                  | PyList xs =>
                      if negb (forallb is_str xs)
                      then (* the message has three [%s] for four values *)
                        Exc TypeError p1
                      else
                        match xs with
                        | PyStr first :: others =>
                            let discarded :=
                              List.map PyStr (cmd_queue p1) ++ [PyList others] in
                            expand_macros fuel' (split first) first p1
                        | _ => Exc IndexError p1
                        end
                  | PyStr s => expand_macros fuel' (split s) s p1
                  | _ =>
                      Ret None
                          (emit (ErrMsgRepr
                                   ("macro " +:+ macro_cmd_name +:+
                                    " should return a List of Strings or a String. Got ")
                                   expansion) p1)
                  end
              end
          end
      end
  end.

(** Lines 959 to 969: the [try] around [cmd_obj.run(args)]. *)
Definition run_command (cmd_obj : command) (args : list string)
    (current : string) (p : proc) : result flow :=
  match run cmd_obj args (set_current_command current p) with
  | Ret res p1 =>
      if truthy res then Ret (Return res) p1 else Ret (Continue current) p1
  | Exc DebuggerQuitException p1 =>
      (* Let these exceptions propagate through *)
      Exc DebuggerQuitException p1
  | Exc e p1 =>
      if is_Exception e
      then Ret (Continue current)
               (errmsg ("INTERNAL ERROR: " +:+ format_exc e) p1)
      else Exc e p1
  | OutOfFuel => OutOfFuel
  end.

Definition dquote : string := String "034" EmptyString.

(** [self.undefined_cmd(cmd)] *)
Definition undefined_cmd (cmd : string) (p : proc) : proc :=
  errmsg ("Undefined command: " +:+ dquote +:+ cmd +:+ dquote
          +:+ ". Try " +:+ dquote +:+ "help" +:+ dquote +:+ ".") p.

(** What the body of [for args in args_list] arrives at before line 959:
    a command to run, with the words and the command line after macro
    expansion, or the end of this pass. *)
Inductive prepared :=
| ToRun (cmd_obj : command) (args : list string) (current : string)
| Done (f : flow).

(** Lines 901 to 958 and 972 to 977: macro expansion, name resolution and
    [ok_for_running], for [args] that is not empty. *)
Definition prepare (fuel : nat) (e : env) (args : list string)
    (current : string) (p : proc) : result prepared :=
  do (expanded, p1) <- expand_macros fuel args current p;
  match expanded with
  | None => Ret (Done (Return (PyBool false))) p1
  | Some (args, current) =>
      match args with
      | [] => Exc IndexError p1
      | first :: _ =>
          let p2 := set_cmd_name first p1 in
          let name := resolve_name e p2 first in
          let p3 := set_cmd_argstr
                      (lstrip (str_drop (String.length first) current)) p2 in
          if match name with
             | Some n => negb (String.eqb n EmptyString)
             | None => false
             end
          then
            let cmd_name := default EmptyString name in
            let p4 := set_last_command (Some current) p3 in
            match commands e !! cmd_name with
            | None => Exc KeyError p4
            | Some cmd_obj =>
                let '(ok, p5) :=
                  ok_for_running cmd_obj cmd_name (Z.of_nat (length args) - 1) p4 in
                if ok then Ret (ToRun cmd_obj args current) p5
                else Ret (Done (Continue current)) p5
            end
          else if negb (autoeval (cfg p3))
          then Ret (Done (Continue current)) (undefined_cmd current p3)
          else Ret (Done (Continue current)) (emit (ExecLine current) p3)
      end
  end.

(** The body of [for args in args_list], for [args] that is not empty. *)
Definition one_command (fuel : nat) (e : env) (args : list string)
    (current : string) (p : proc) : result flow :=
  do (pr, p1) <- prepare fuel e args current p;
  match pr with
  | ToRun cmd_obj args current => run_command cmd_obj args current p1
  | Done f => Ret f p1
  end.

(** [for args in args_list: ...] followed by [return False] *)
Fixpoint for_args (fuel : nat) (e : env) (args_list : list (list string))
    (current : string) (p : proc) : result pyval :=
  match args_list with
  | [] => Ret (PyBool false) p
  | [] :: rest => for_args fuel e rest current p
  | args :: rest =>
      do (f, p1) <- one_command fuel e args current p;
      match f with
      | Return v => Ret v p1
      | Continue current' => for_args fuel e rest current' p1
      end
  end.

Section ProcessCommand.
Variable shlex_tokens : string -> outcome (list string).

(** [current_command[0] == "#"] *)
Definition is_comment (s : string) : bool :=
  match s with
  | String a _ => Ascii.eqb a "#"
  | EmptyString => false
  end.

(** [process_command(self)]; [fuel] bounds the number of macro expansions
    per command. *)
Definition process_command (fuel : nat) (e : env) (p : proc) : result pyval :=
  do (current_command, p1) <- next_command p;
  match current_command with
  | None => Ret (PyBool false) p1
  | Some current =>
      if String.eqb EmptyString current then
        if top_interactive p1
        then Ret (PyBool false)
                 (errmsg "No previous command registered, so this is a no-op." p1)
        else Ret (PyBool false) p1
      else if is_comment current then Ret (PyBool false) p1
      else
        match arg_split shlex_tokens current with
        | Raises err =>
            if is_Exception err
            then Ret (PyBool false) (errmsg ("bad parse " +:+ exn_name err) p1)
            else Exc err p1
        | Returns args_list => for_args fuel e args_list current p1
        end
  end.

(** What [process_commands] does when [process_command] raised
    [EOFError]: [None] when the loop goes on. *)
Definition on_eof (p : proc) : option (result unit) :=
  if (1 <? length (intf p))%nat
  then None
  else
    match top_intf p with
    | None => Some (Exc IndexError p)
    | Some i =>
        if output i then Some (Exc SystemExit (emit (WriteLine "Leaving") p))
        else Some (Ret tt p)
    end.

(** The body of the [try] in the loop of [process_commands] up to the
    assignment of [leave_loop]. *)
Definition one_pass (mfuel : nat) (e : env) (p : proc) : result pyval :=
  do (_, p1) <- run_hooks (precmd_hooks e) p;
  process_command mfuel e p1.

(** [del self.debugger.intf[-1]] and the reset of [self.last_command] to
    the empty string *)
Definition pop_intf (p : proc) : proc :=
  set_last_command (Some EmptyString) (set_intf (removelast (intf p)) p).

(** The [while not leave_loop] loop of [process_commands]; [fuel] bounds
    the number of passes, [mfuel] the macro expansions of one command. *)
Fixpoint command_loop (mfuel fuel : nat) (e : env) (p : proc) : result unit :=
  match fuel with
  | O => OutOfFuel
  | S fuel' =>
      match one_pass mfuel e p with
      | Ret leave_loop p2 =>
          if truthy leave_loop || continue_running p2 then Ret tt p2
          else command_loop mfuel fuel' e p2
      | Exc EOFError p2 =>
          match on_eof p2 with
          | None => command_loop mfuel fuel' e (pop_intf p2)
          | Some r => r
          end
      | Exc err p2 => Exc err p2
      | OutOfFuel => OutOfFuel
      end
  end.

(** The statements of [process_commands] before the hooks. *)
Definition prologue (p : proc) : proc :=
  if negb (String.eqb (execution_status p) "No program")
  then emit PrintLocation (emit PrintEventLocation (emit Setup p))
  else p.

(** [process_commands(self)] *)
Definition process_commands (mfuel fuel : nat) (e : env) (p : proc)
  : result bool :=
  do (leave_loop, p2) <- run_hooks (preloop_hooks e) (prologue p);
  let p3 := set_continue_running false p2 in
  do (_, p4) <- (if leave_loop then Ret tt p3
                 else command_loop mfuel fuel e p3);
  run_hooks (postcmd_hooks e) p4.

End ProcessCommand.

End CmdProc.

(** ** command/quit.py *)
Module Quit.
Import CmdProc.

(** [ctype_async_raise(thread_obj, exception)] *)
Definition ctype_async_raise (t : thread) (p : proc) : result unit :=
  if negb (t_active t) then Exc ValueError p
  else
    let p1 := emit (AsyncRaise (t_id t)) p in
    if t_async_ret t =? 0 then Exc DebuggerQuitException p1
    else if t_async_ret t >? 1
    then Exc SystemError (emit (AsyncClear (t_id t)) p1)
    else Ret tt p1.

(** [QuitCommand.nothread_quit(self, arg)] *)
Definition nothread_quit (arg : list string) (p : proc) : result pyval :=
  Exc DebuggerQuitException
      (set_execution_status "Quit command" (emit CoreStop p)).

(** The loop of [threaded_quit] over [threading.enumerate()] *)
Fixpoint raise_in_others (mythread : nat) (threading_list : list thread)
    (p : proc) : result unit :=
  match threading_list with
  | [] => Ret tt p
  | t :: rest =>
      if Nat.eqb (t_id t) mythread then raise_in_others mythread rest p
      else do (_, p1) <- ctype_async_raise t p;
           raise_in_others mythread rest p1
  end.

(** [QuitCommand.threaded_quit(self, arg)] *)
Definition threaded_quit (arg : list string) (p : proc) : result pyval :=
  do (_, p1) <- raise_in_others (current_thread (cfg p)) (threads (cfg p)) p;
  Exc DebuggerQuitException p1.

(** [QuitCommand.run(self, args)] *)
Definition run (args : list string) (p : proc) : result pyval :=
  let threading_list := threads (cfg p) in
  if (Nat.eqb (length threading_list) 1 || from_ipython (cfg p))
  then match threading_list with
       | [] => Exc IndexError p
       | t :: _ =>
           if String.eqb (t_name t) "MainThread" then nothread_quit args p
           else threaded_quit args p
       end
  else threaded_quit args p.

(** The command object: [max_args = 0]; the other attributes keep the
    defaults of the base class. *)
Definition QuitCommand : command := Command 0 (Some 0) false None run.

Definition quit_aliases : list string := ["q"; "quit!"].

End Quit.

(** ** Notions used in the statements about the stop-decision engine *)
Module Engine.
Import Core.

(** Feeding a sequence of events to [is_stop_here]: the decision and the
    state after each event. *)
Fixpoint run_events `{FrameCount} (s : stop_state)
    (evs : list (frame * string)) : list (bool * stop_state) :=
  match evs with
  | [] => []
  | (fr, ev) :: rest =>
      let r := is_stop_here s fr ev in
      r :: run_events (snd r) rest
  end.

(** A qualifying stepping event: it gets past the duplicate-line check, its
    depth is within [stop_level] without being the return that ends a
    [finish], and it belongs to the configured step-event set. *)
Definition qualifying `{FrameCount} (s : stop_state) (fr : frame)
    (ev : string) : bool :=
  negb (different_line s && String.eqb ev "line" && same_position s fr)
  && match stop_level s with
     | None => true
     | Some lvl =>
         let s2 := recompute_level
                     (set_last_position (f_lineno fr) (co_filename (f_code fr)) s)
                     fr in
         (last_level s2 <=? lvl)
         && negb ((last_level s2 =? lvl) && stop_on_finish s2 && return_class ev)
     end
  && negb (truthy_coll (step_events s)
           && negb (str_in ev (default [] (step_events s)))).


(** The depth of a frame: what [count_frames] answers for it. *)
Definition depth `{FrameCount} (fr : frame) : Z := count_frames fr.

(** One such function, the [count_frames] of
    [pymathics/debugger/lib/stack.py]: the number of frames on the [f_back]
    chain. *)
Definition chain_length : FrameCount :=
  fun fr => Stack.count_frames (Some fr) 0.

(** The cached depth is that of the cached frame: when [fr] is the frame
    remembered in [last_frame], [last_level] is its depth. *)
Definition cache_coherent `{FrameCount} (s : stop_state) (fr : frame) : Prop :=
  last_frame s = Some (f_id fr) -> last_level s = depth fr.

Definition set_different_line (b : bool) (s : stop_state) : stop_state :=
  StopState (step_events s) (step_ignore s) (last_frame s) (last_level s)
    (stop_level s) (stop_on_finish s) (last_lineno s) (last_filename s) b
    (stop_reason s).

(** The decisions of a run contain exactly one stop, at position [k]
    (counted from 0). *)
Definition stops_only_at (k : nat) (decisions : list bool) : Prop :=
  forall i : nat, decisions !! i = Some true <-> i = k.

(** A chain of [n] frames in one file, the innermost at line [line]. *)
Fixpoint frame_at_depth (n : nat) (file : string) (line : Z) : frame :=
  match n with
  | O | S O => Frame 1 (Code 1 file "<module>") line None
  | S k => Frame n (Code n file "f") line (Some (frame_at_depth k file 1))
  end.

(** The state kept along the scenario: only line events step, the
    duplicate check is off, depth [d] is within [stop_level], and the frame
    cache is right for the frames of the scenario. *)
Definition scenario_inv `{FrameCount} (frames : list frame) (d : Z) (n : Z)
    (s : stop_state) : Prop :=
  step_events s = Some ["line"] /\
  step_ignore s = n /\
  different_line s = false /\
  (forall lvl, stop_level s = Some lvl -> d <= lvl) /\
  (forall fr, In fr frames -> depth fr = d /\ cache_coherent s fr).

(** *** Concrete runs *)



(** The engine with [different_line] set, stepping at once. *)
Definition line_stepping : stop_state :=
  StopState None 0 None 10000 None false None None true EmptyString.

(** The engine of the scenario: [step_events] = {line}, [step_ignore] = 2,
    depth 2 within [stop_level] = 2. *)
Definition scenario_state : stop_state :=
  StopState (Some ["line"]) 2 None 10000 (Some 2) false None None false
    EmptyString.

Definition scenario_events : list (frame * string) :=
  [(frame_at_depth 2 "a.py" 1, "line"); (frame_at_depth 2 "a.py" 2, "call");
   (frame_at_depth 2 "a.py" 3, "line"); (frame_at_depth 2 "a.py" 4, "line")].


End Engine.

(** ** Notions used in the statements about breakpoints and dispatch *)
Module Dispatching.
Import BreakpointManager Core.

(** The breakpoint is recorded in one of the two indexes. *)
Definition registered (m : BreakpointManager.t) (bp : breakpoint) : Prop :=
  (exists key l, bplist m !! key = Some l /\ In bp l) \/
  (exists fn l, In (fn, l) (fnlist m) /\ In bp l).

(** Every breakpoint of [bplist] is recorded under its own location. *)
Definition well_indexed (m : BreakpointManager.t) : Prop :=
  forall key l b, bplist m !! key = Some l -> In b l ->
    key = (bp_filename b, bp_line b).

(** No breakpoint other than [bp] is recorded for the location [key] or
    for a function called [fname]. *)
Definition alone_at (m : BreakpointManager.t) (bp : breakpoint)
    (key : string * Z) (fname : string) : Prop :=
  (forall l, bplist m !! key = Some l -> l = [bp]) /\
  (forall fn l, In (fn, l) (fnlist m) -> fn_name fn = fname -> l = [bp]).

Section Hits.
Variable sep : ascii.
Variable unmap_file : option (string -> string).
Variable fs : FileNames.file_system.
Variable py_eval : string -> frame -> outcome pyval.

(** The canonic name of the file of [fr], as [self.canonic] answers in the
    core [c]. *)
Definition canonic_name (c : core) (fr : frame) : string :=
  fst (canonic sep unmap_file fs (co_filename (f_code fr)) c).

(** The event at [fr] hits [bp]: [is_break_here] answers [True] with [bp]
    as the current breakpoint. *)
Definition hits (c : core) (fr : frame) (bp : breakpoint) : Prop :=
  fst (is_break_here sep unmap_file fs py_eval c fr) = Returns true /\
  current_bp (snd (is_break_here sep unmap_file fs py_eval c fr)) = Some bp.

(** The event at [fr] hits [bp] and the manager allows its deletion: on a
    call event [bp] is the first breakpoint of the called function; else
    [find_bp] reports [bp] with the flag set. *)
Definition hits_deletable (c : core) (fr : frame) (bp : breakpoint) : Prop :=
  (event c = Some "call" /\
   exists rest, scan_fnlist (co_name (f_code fr)) (fnlist (bpmgr c))
                = Some (bp :: rest)) \/
  ((event c <> Some "call" \/
    scan_fnlist (co_name (f_code fr)) (fnlist (bpmgr c)) = None) /\
   find_bp py_eval (bpmgr c) (canonic_name c fr)
     (f_lineno fr) fr = (Some bp, true)).

(** What the specification promises for a temporary breakpoint hit at
    [fr]: a reason with the "temporary" qualifier and the number, the
    breakpoint deleted, and no stop on a second pass through the same
    location. *)
Definition temporary_once (c : core) (fr : frame) (bp : breakpoint) : Prop :=
  let c1 := snd (is_break_here sep unmap_file fs py_eval c fr) in
  str_contains "temporary" (stop_reason (engine c1)) = true /\
  str_contains (pretty (number bp)) (stop_reason (engine c1)) = true /\
  ~ registered (bpmgr c1) bp /\
  fst (is_break_here sep unmap_file fs py_eval (set_event (event c) c1) fr)
    = Returns false.
End Hits.

(** The event types with a branch of their own in [trace_dispatch]. *)
Definition handled_event (ev : string) : bool :=
  str_in ev ["mpmath"; "SymPy"; "Get"; "evaluate-result"; "evaluate-entry"].

(** The frame is excluded by the ignore filter. *)
Definition excluded (c : core) (fr : frame) : bool :=
  match ignore_filter c with
  | Some flt => TraceFilter.is_excluded flt fr
  | None => false
  end.

(** The echo of trace events fires. *)
Definition echo_fires (c : core) : bool :=
  trace (dbg_settings c) && event_in c (printset (dbg_settings c)).

(** The "run until condition" gate lets the event through. *)
Definition condition_holds (py_eval : string -> frame -> outcome pyval)
    (c : core) (fr : frame) : bool :=
  if truthy_str (until_condition c)
  then match matches_condition py_eval c fr with
       | Returns v => truthy v
       | Raises _ => false
       end
  else true.

(** The event belongs to the traced event set. *)
Definition traced (c : core) : bool :=
  match events (dbg_settings c) with
  | Some trace_event_set => event_in c trace_event_set
  | None => false
  end.

(** The call did not invoke the command processor. *)
Definition processor_not_invoked (d : dispatched) : Prop :=
  forall fr ev a, ~ In (ProcessorCall fr ev a) (d_effects d).

(** *** Concrete objects *)

(** A file system in which every name is a file and is its own canonic
    name. *)
Definition same_name : FileNames.file_system :=
  FileNames.FileSystem (fun f => f) (fun d f => f) (fun _ => true)
    (fun _ _ _ => None) (fun f => f) (fun f => f).

(** An [eval] that always raises, as for the expression [1/0]. *)
Definition failing_eval : string -> frame -> outcome pyval :=
  fun _ _ => Raises (OtherException "ZeroDivisionError").

(** A command processor whose loop is left at once. *)
Definition resuming_processor
  : frame -> string -> pyarg -> core -> outcome pyval * core :=
  fun _ _ _ c => (Returns PyNone, c).

Definition no_breakpoints : BreakpointManager.t := Mgr ∅ [].

Definition all_events : list string :=
  ["line"; "call"; "return"; "mpmath"; "SymPy"; "Get"; "evaluate-entry";
   "evaluate-result"; "debugger"].

(** A core as [__init__] leaves it, tracing [all_events]. *)
Definition fresh_core : core :=
  DebuggerCore no_breakpoints None None None "Pre-execution" ∅
    (Some (TraceFilter.Filter {[ 7%nat ]})) None (init_stop_state 0)
    (Settings false [] (Some all_events)) (FileNames.Names ∅ "." []).

Definition with_condition (cond : string) (c : core) : core :=
  DebuggerCore (bpmgr c) (current_bp c) (event c) (arg c) (execution_status c)
    (ignore_code c) (ignore_filter c) (Some cond) (engine c) (dbg_settings c)
    (file_names c).

Definition with_settings (st : settings) (c : core) : core :=
  DebuggerCore (bpmgr c) (current_bp c) (event c) (arg c) (execution_status c)
    (ignore_code c) (ignore_filter c) (until_condition c) (engine c) st
    (file_names c).

Definition frame_in (code_id : nat) (file : string) (line : Z) : frame :=
  Frame 1 (Code code_id file "f") line None.

(** A temporary breakpoint at a.py:10, and the same with a condition. *)
Definition temp_bp : breakpoint := Breakpoint 1 "a.py" 10 true true None.
Definition temp_cond_bp : breakpoint :=
  Breakpoint 1 "a.py" 10 true true (Some "1/0").

Definition core_with_bp (bp : breakpoint) : core :=
  set_event (Some "line")
    (set_bpmgr (Mgr {[ ("a.py", 10) := [bp] ]} []) fresh_core).

(** The filters of the event types: one for an event type that
    [trace_dispatch] has no branch for. *)
Definition some_filters : gmap string (list string) :=
  {[ "debugger" := ["Plus"] ]}.

End Dispatching.

(** ** Notions used in the statements about the command loop *)
Module Looping.
Import CmdProc.

(** A line that [process_command] goes on to split: not empty and not a
    comment. *)
Definition is_command_line (s : string) : bool :=
  negb (String.eqb EmptyString s) && negb (is_comment s).

Section Dispatches.
Variable shlex_tokens : string -> outcome (list string).
Variable mfuel : nat.
Variable e : env.

(** The [for] loop over [args_list], entered with the command line
    [current] in state [p], gets to run [cmd_obj] on [args], with the
    command line [current'], in state [p']. *)
Inductive line_dispatches
  : list (list string) -> string -> proc ->
    command -> list string -> string -> proc -> Prop :=
| line_skip rest current p cmd_obj args current' p' :
    line_dispatches rest current p cmd_obj args current' p' ->
    line_dispatches ([] :: rest) current p cmd_obj args current' p'
| line_here w ws rest current p cmd_obj args current' p' :
    prepare mfuel e (w :: ws) current p = Ret (ToRun cmd_obj args current') p' ->
    line_dispatches ((w :: ws) :: rest) current p cmd_obj args current' p'
| line_later w ws rest current p current1 p1 cmd_obj args current' p' :
    one_command mfuel e (w :: ws) current p = Ret (Continue current1) p1 ->
    line_dispatches rest current1 p1 cmd_obj args current' p' ->
    line_dispatches ((w :: ws) :: rest) current p cmd_obj args current' p'.

(** One pass of the command loop ends without leaving the loop. *)
Inductive passes : proc -> proc -> Prop :=
| pass_on p v p2 :
    one_pass shlex_tokens mfuel e p = Ret v p2 ->
    truthy v || continue_running p2 = false ->
    passes p p2
| pass_eof p p2 :
    one_pass shlex_tokens mfuel e p = Exc EOFError p2 ->
    on_eof p2 = None ->
    passes p (pop_intf p2).

(** The command loop, entered in state [p], gets to run [cmd_obj] on
    [args], with the command line [current], in state [p']: in this pass or
    in a later one. *)
Inductive loop_dispatches
  : proc -> command -> list string -> string -> proc -> Prop :=
| loop_here p b p1 line p2 args_list cmd_obj args current p' :
    run_hooks (precmd_hooks e) p = Ret b p1 ->
    next_command p1 = Ret (Some line) p2 ->
    is_command_line line = true ->
    arg_split shlex_tokens line = Returns args_list ->
    line_dispatches args_list line p2 cmd_obj args current p' ->
    loop_dispatches p cmd_obj args current p'
| loop_later p p2 cmd_obj args current p' :
    passes p p2 ->
    loop_dispatches p2 cmd_obj args current p' ->
    loop_dispatches p cmd_obj args current p'.

(** [process_commands], called in state [p0], enters its loop in state
    [p]. *)
Definition enters_loop (p0 p : proc) : Prop :=
  exists p2, run_hooks (preloop_hooks e) (prologue p0) = Ret false p2 /\
             p = set_continue_running false p2.
End Dispatches.

(** *** A concrete debugger session *)

(** A lexer for lines without quotes and comments. *)
Definition word_tokens (s : string) : outcome (list string) :=
  Returns (split s).

(** A command that writes its name and returns [None]. *)
Definition echo_command (name : string) : command :=
  Command 0 None false None
    (fun _ p => Ret PyNone (emit (WriteLine name) p)).

(** A command that fails. *)
Definition broken_command : command :=
  Command 0 None false None
    (fun _ p => Exc (OtherException "RuntimeError") p).

(** A macro that expands to the list [["first", "second"]]. *)
Definition both : macro := fun _ => Returns (PyList [PyStr "first"; PyStr "second"]).

Definition session_env : env :=
  Env (<["quit" := Quit.QuitCommand]>
       (<["first" := echo_command "first"]>
        (<["second" := echo_command "second"]>
         (<["other" := echo_command "other"]>
          (<["broken" := broken_command]> ∅)))))
      [] [] [].

Definition session_cfg : config :=
  Config {[ "both" := both ]} {[ "q" := "quit" ]} false false 80 None
    [Thread 0 "MainThread" true 1] 0 false.

(** The processor at a stop, with the lines the user is going to type. *)
Definition session (lines : list string) : proc :=
  Proc [] None EmptyString EmptyString EmptyString
    [Interface lines true true] false "Running" [] session_cfg.

End Looping.

(** ** cmdproc.py: the call stack shown to the user *)
Module MathicsStack.

(** The loop [while f is not None] of [get_mathics_stack]: the entries in
    the order they are appended, the frame it starts from first. *)
Fixpoint walk_back (f : frame) : list (frame * Z) :=
  (f, f_lineno f) :: match f_back f with
                     | None => []
                     | Some b => walk_back b
                     end.

(** [get_mathics_stack(f, proc_obj)]: the stack, oldest frame first, and
    the index of the current entry.  [proc_obj] is read by a nested function
    that is never called. *)
Definition get_mathics_stack (f : option frame) : list (frame * Z) * Z :=
  let stack := reverse (match f with
                        | Some fr => walk_back fr
                        | None => []
                        end) in
  (stack, Z.max 0 (Z.of_nat (length stack) - 1)).

End MathicsStack.

(** ** cmdproc.py: the list of pre-loop hooks *)
Module Hooks.

Section HookList.
(** Hook objects; [in] and [index] compare them with [==], which for
    functions is identity. *)
Context {A : Type} `{EqDecision A}.

(** [l.insert(position, x)]: a negative position counts from the end, and
    positions outside the list are clamped. *)
Definition py_insert (position : Z) (x : A) (l : list A) : list A :=
  let n := Z.of_nat (length l) in
  let i := if position <? 0 then Z.max 0 (position + n) else Z.min position n in
  take (Z.to_nat i) l ++ x :: drop (Z.to_nat i) l.

(** [l.index(x)]: the position of the first occurrence; [None] stands for
    [ValueError]. *)
Fixpoint py_index (x : A) (l : list A) : option nat :=
  match l with
  | [] => None
  | y :: rest =>
      if bool_decide (x = y) then Some O
      else match py_index x rest with
           | Some i => Some (S i)
           | None => None
           end
  end.

(** [add_preloop_hook(self, hook, position=-1, nodups=True)]: the value
    returned and [self.preloop_hooks] afterwards.  [nodups] is not read. *)
Definition add_preloop_hook (preloop_hooks : list A) (hook : A)
    (position : Z) (nodups : bool) : bool * list A :=
  if bool_decide (hook ∈ preloop_hooks) then (false, preloop_hooks)
  else (true, py_insert position hook preloop_hooks).

(** [remove_preloop_hook(self, hook)] *)
Definition remove_preloop_hook (preloop_hooks : list A) (hook : A)
  : bool * list A :=
  match py_index hook preloop_hooks with
  | None => (false, preloop_hooks)
  | Some position => (true, delete position preloop_hooks)
  end.
End HookList.

End Hooks.

(** ** cmdproc.py: integer arguments of commands *)
Module Numbers.
Import CmdProc.

(** The truth value of an optional integer: [None] and 0 are false. *)
Definition truthy_int (n : option Z) : bool :=
  match n with
  | Some z => negb (z =? 0)
  | None => false
  end.

Section GetInt.
(** [eval(arg, g, locals_dict)], in the globals and locals of
    [self.curframe] when there is one, else in those of the module. *)
Variable py_eval : string -> outcome pyval.
(** [int(v)] *)
Variable py_int : pyval -> outcome Z.
(** [isinstance(e, (SyntaxError, NameError, ValueError, TypeError))] *)
Variable caught : exn -> bool.

(** [get_int_noerr(self, arg)] *)
Definition get_int_noerr (arg : string) : outcome (option Z) :=
  match py_eval arg with
  | Raises e => if caught e then Returns None else Raises e
  | Returns v =>
      match py_int v with
      | Raises e => if caught e then Returns None else Raises e
      | Returns val => Returns (Some val)
      end
  end.

(** [get_an_int(self, arg, msg_on_error, min_value=None, max_value=None)] *)
Definition get_an_int (arg : string) (msg_on_error : option string)
    (min_value max_value : option Z) (p : proc) : result (option Z) :=
  match get_int_noerr arg with
  | Raises e => Exc e p
  | Returns None =>
      if truthy_str msg_on_error
      then Ret None (errmsg (default EmptyString msg_on_error) p)
      else Ret None (errmsg ("Expecting an integer, got: " +:+ arg +:+ ".") p)
  | Returns (Some ret_value) =>
      if truthy_int min_value && (ret_value <? default 0 min_value)
      then Ret None
             (errmsg ("Expecting integer value to be at least "
                      +:+ pretty (default 0 min_value) +:+ ", got: "
                      +:+ pretty ret_value +:+ ".") p)
      else if truthy_int max_value && (ret_value >? default 0 max_value)
      then Ret None
             (errmsg ("Expecting integer value to be at most "
                      +:+ pretty (default 0 max_value) +:+ ", got: "
                      +:+ pretty ret_value +:+ ".") p)
      else Ret (Some ret_value) p
  end.

(** [get_int(self, arg, min_value=0, default=1, cmdname=None, at_most=None)].
    The branch for a value above [at_most] writes its message and falls
    through to [return default]. *)
Definition get_int (arg : option string) (min_value : Z) (default_value : Z)
    (cmdname : option string) (at_most : option Z) (p : proc)
  : result (option Z) :=
  match arg with
  | None => Ret (Some default_value) p
  | Some arg =>
      match get_int_noerr arg with
      | Raises e => Exc e p
      | Returns None =>
          if truthy_str cmdname
          then Ret None
                 (errmsg ("Command '" +:+ default EmptyString cmdname
                          +:+ "' expects an integer; got: " +:+ arg +:+ ".") p)
          else Ret None
                 (errmsg ("Expecting a positive integer, got: " +:+ arg) p)
      | Returns (Some value) =>
          if value <? min_value then
            if truthy_str cmdname
            then Ret None
                   (errmsg ("Command '" +:+ default EmptyString cmdname
                            +:+ "' expects an integer at least "
                            +:+ pretty min_value +:+ "; got: "
                            +:+ pretty value +:+ ".") p)
            else Ret None
                   (errmsg ("Expecting a positive integer at least "
                            +:+ pretty min_value +:+ "; got: "
                            +:+ pretty value) p)
          else if truthy_int at_most && (value >? default 0 at_most) then
            if truthy_str cmdname
            then Ret (Some value)
                   (errmsg ("Command '" +:+ default EmptyString cmdname
                            +:+ "' expects an integer at most "
                            +:+ pretty (default 0 at_most) +:+ "; got: "
                            +:+ pretty value +:+ ".") p)
            else Ret (Some value)
                   (errmsg ("Expecting an integer at most "
                            +:+ pretty (default 0 at_most) +:+ "; got: "
                            +:+ pretty value) p)
          else Ret (Some value) p
      end
  end.
End GetInt.

End Numbers.

(** ** cmdproc.py: what [__init__] sets up *)
Module Startup.
Import CmdProc.

Section StartFiles.
(** [osp.expanduser] *)
Variable expanduser : string -> string.
(** [Mfile.readable(path)]: [True], [False], or [None] for a file that does
    not exist. *)
Variable readable : string -> option bool.

(** [queue_startfile(self, cmdfile)] *)
Definition queue_startfile (cmdfile : string) (p : proc) : proc :=
  let expanded_cmdfile := expanduser cmdfile in
  match readable expanded_cmdfile with
  | Some true =>
      set_cmd_queue (cmd_queue p ++ ["source " +:+ expanded_cmdfile]) p
  | None =>
      errmsg ("source file '" +:+ expanded_cmdfile +:+ "' doesn't exist") p
  | Some false =>
      errmsg ("source file '" +:+ expanded_cmdfile +:+ "' is not readable") p
  end.

(** The loop [for init_cmdfile in initfile_list] that ends [__init__]. *)
Definition queue_startfiles (initfile_list : list string) (p : proc) : proc :=
  fold_left (fun p init_cmdfile => queue_startfile init_cmdfile p)
    initfile_list p.
End StartFiles.

(** A command object as [_populate_cmd_lists] sees it: its [name], its
    [aliases] ([None] when the object has no such attribute), its
    [category] (which may be [None]), and the command itself. *)
Record cmd_instance := CmdInstance {
  inst_name : string;
  inst_aliases : option (list string);
  inst_category : option string;
  inst_command : command
}.

(** [self.commands], [self.aliases] and [self.category] *)
Record tables := Tables {
  t_commands : gmap string command;
  t_aliases : gmap string string;
  t_category : gmap (option string) (list string)
}.

(** The order of [str]: by code points. *)
Definition str_le (a b : string) : Prop := String.leb a b = true.

#[local] Instance str_le_dec : RelDecision str_le :=
  fun a b => decide (String.leb a b = true).

(** The body of the loop over [self.cmd_instances] *)
Definition register (t : tables) (cmd_instance : cmd_instance) : tables :=
  match inst_aliases cmd_instance with
  | None => t
  | Some alias_names =>
      let cmd_name := inst_name cmd_instance in
      let cat := inst_category cmd_instance in
      Tables
        (<[cmd_name := inst_command cmd_instance]> (t_commands t))
        (fold_left (fun a alias_name => <[alias_name := cmd_name]> a)
           alias_names (t_aliases t))
        (if truthy_str cat && truthy_coll (t_category t !! cat)
         then <[cat := default [] (t_category t !! cat) ++ [cmd_name]]>
                (t_category t)
         else <[cat := [cmd_name]]> (t_category t))
  end.

(** [_populate_cmd_lists(self)] *)
Definition _populate_cmd_lists (cmd_instances : list cmd_instance) : tables :=
  let t := fold_left register cmd_instances (Tables ∅ ∅ ∅) in
  Tables (t_commands t) (t_aliases t) (merge_sort str_le <$> t_category t).

End Startup.

(** ** Notions used in the statements about the rest of the code *)
Module Auxiliary.
Import Core CmdProc.

(** The state of the engine after a sequence of events. *)
Fixpoint final_state `{FrameCount} (s : stop_state)
    (evs : list (frame * string)) : stop_state :=
  match evs with
  | [] => s
  | (fr, ev) :: rest => final_state (snd (is_stop_here s fr ev)) rest
  end.

(** The number of events of the sequence that are qualifying in the state
    they arrive in. *)
Fixpoint count_qualifying `{FrameCount} (s : stop_state)
    (evs : list (frame * string)) : Z :=
  match evs with
  | [] => 0
  | (fr, ev) :: rest =>
      (if Engine.qualifying s fr ev then 1 else 0)
      + count_qualifying (snd (is_stop_here s fr ev)) rest
  end.

(** The words of a command line put together again: the groups, with the
    separator between them. *)
Definition join_groups (args_list : list (list string)) : list string :=
  match args_list with
  | [] => []
  | first :: rest => first ++ flat_map (fun g => ";;" :: g) rest
  end.

(** A thread other than the current one in which the quit signal can be
    raised: it is active and the interpreter reports one thread changed. *)
Definition signalable (mythread : nat) (t : thread) : Prop :=
  t_id t <> mythread -> t_active t = true /\ t_async_ret t = 1.

(** The identities of the threads other than the current one. *)
Definition others (mythread : nat) (threading_list : list thread) : list nat :=
  List.map t_id
    (List.filter (fun t => negb (Nat.eqb (t_id t) mythread)) threading_list).

(** *** Concrete objects *)

(** A macro that expands to a call of itself. *)
Definition again : macro := fun _ => Returns (PyStr "again please").

Definition again_cfg : config :=
  Config {[ "again" := again ]} ∅ false false 80 None
    [Thread 0 "MainThread" true 1] 0 false.

Definition again_session : proc :=
  Proc [] None EmptyString EmptyString EmptyString
    [Interface [] true true] false "Running" [] again_cfg.

(** A debugger with a main thread and two worker threads. *)
Definition three_threads : config :=
  Config ∅ ∅ false false 80 None
    [Thread 0 "MainThread" true 1; Thread 1 "worker-1" true 1;
     Thread 2 "worker-2" true 1] 0 false.

Definition threaded_session : proc :=
  Proc [] None EmptyString EmptyString EmptyString
    [Interface [] true true] false "Running" [] three_threads.

(** Two stacked interfaces that have nothing more to deliver: the user's
    terminal below a command file. *)
Definition exhausted_session : proc :=
  Proc [] (Some "list") EmptyString EmptyString EmptyString
    [Interface [] true true; Interface [] false false] false "Running" []
    Looping.session_cfg.

(** A command file run without a terminal: one interface, nothing left to
    read, no output channel. *)
Definition silent_session : proc :=
  Proc [] None EmptyString EmptyString EmptyString
    [Interface [] false false] false "Running" [] Looping.session_cfg.



(** A file system in which every name is a file under [/work]. *)
Definition work_files : FileNames.file_system :=
  FileNames.FileSystem (fun f => "/work/" +:+ f) (fun d f => d +:+ "/" +:+ f)
    (fun _ => true) (fun _ _ _ => None) (fun f => f) (fun f => f).

(** The same after a change of the working directory. *)
Definition moved_files : FileNames.file_system :=
  FileNames.FileSystem (fun f => "/elsewhere/" +:+ f)
    (fun d f => d +:+ "/" +:+ f)
    (fun _ => true) (fun _ _ _ => None) (fun f => f) (fun f => f).

Definition no_names : FileNames.names := FileNames.Names ∅ "." [].

(** Two command objects of this package: [quit] with its aliases, and
    [set], which has none of its own. *)
Definition package_commands : list Startup.cmd_instance :=
  [Startup.CmdInstance "quit" (Some Quit.quit_aliases) (Some "support")
     Quit.QuitCommand;
   Startup.CmdInstance "set" (Some []) (Some "data")
     (Looping.echo_command "set")].

(** A processor whose tables are those [_populate_cmd_lists] builds. *)
Definition populated_env (cmd_instances : list Startup.cmd_instance) : env :=
  Env (Startup.t_commands (Startup._populate_cmd_lists cmd_instances))
    [] [] [].

Definition populated_cfg (cmd_instances : list Startup.cmd_instance) : config :=
  Config ∅ (Startup.t_aliases (Startup._populate_cmd_lists cmd_instances))
    false false 80 None [Thread 0 "MainThread" true 1] 0 false.

Definition populated_session (cmd_instances : list Startup.cmd_instance)
  : proc :=
  Proc [] None EmptyString EmptyString EmptyString
    [Interface [] true true] false "Running" []
    (populated_cfg cmd_instances).

End Auxiliary.


(** * Properties of the stop-decision engine *)
Section EngineProperties.
Import Core Engine.

(** The imported [count_frames]: any function from frames to integers. *)
Context {frame_count : FrameCount}.

Lemma recompute_level_fields s fr :
  step_events (recompute_level s fr) = step_events s /\
  step_ignore (recompute_level s fr) = step_ignore s /\
  stop_level (recompute_level s fr) = stop_level s /\
  stop_on_finish (recompute_level s fr) = stop_on_finish s /\
  different_line (recompute_level s fr) = different_line s /\
  last_lineno (recompute_level s fr) = last_lineno s /\
  last_filename (recompute_level s fr) = last_filename s /\
  stop_reason (recompute_level s fr) = stop_reason s.
Proof. unfold recompute_level. destruct (frame_changed s fr); auto 10. Qed.

Lemma recompute_level_cache s fr :
  (last_frame (recompute_level s fr) = last_frame s /\
   last_level (recompute_level s fr) = last_level s) \/
  (last_frame (recompute_level s fr) = Some (f_id fr) /\
   last_level (recompute_level s fr) = depth fr).
Proof. unfold recompute_level. destruct (frame_changed s fr); auto. Qed.

Lemma recompute_level_depth s fr :
  cache_coherent s fr -> last_level (recompute_level s fr) = depth fr.
Proof.
  unfold cache_coherent, recompute_level, frame_changed.
  destruct (last_frame s) as [id|]; [|reflexivity].
  destruct (Nat.eqb_spec id (f_id fr)) as [->|]; simpl; auto.
Qed.

(** The event is outside a configured step-event set. *)
Local Abbreviation filtered s ev :=
  (truthy_coll (step_events s)
   && negb (str_in ev (default [] (step_events s)))).

(** The ways [_is_step_next_stop] ends. *)
Lemma step_next_stop_cases s ev :
  (filtered s ev = true /\ _is_step_next_stop s ev = (false, s)) \/
  (filtered s ev = false /\ step_ignore s = 0 /\
   _is_step_next_stop s ev = (true, s)) \/
  (filtered s ev = false /\ step_ignore s > 0 /\
   _is_step_next_stop s ev = (false, set_step_ignore (step_ignore s - 1) s)) \/
  (filtered s ev = false /\ step_ignore s < 0 /\
   _is_step_next_stop s ev = (false, s)).
Proof.
  unfold _is_step_next_stop.
  destruct (filtered s ev); [auto|].
  destruct (Z.eqb_spec (step_ignore s) 0); [auto|].
  destruct (Z.gtb_spec (step_ignore s) 0) as [Hgt|Hle].
  - right; right; left. split; [reflexivity|]. split; [lia|reflexivity].
  - right; right; right. split; [reflexivity|]. split; [lia|reflexivity].
Qed.

(** [check_stepping] touches [step_ignore] and [stop_reason] only. *)
Lemma check_stepping_fields s ev :
  let s' := snd (check_stepping s ev) in
  step_events s' = step_events s /\
  different_line s' = different_line s /\
  stop_on_finish s' = stop_on_finish s /\
  stop_level s' = stop_level s /\
  last_frame s' = last_frame s /\
  last_level s' = last_level s /\
  last_lineno s' = last_lineno s /\
  last_filename s' = last_filename s.
Proof.
  unfold check_stepping.
  destruct (step_next_stop_cases s ev) as [[_ E]|[(_&_&E)|[(_&_&E)|(_&_&E)]]];
    rewrite E; simpl; auto 10.
Qed.

(** What [check_stepping] decides for an event of the step-event set. *)
Lemma check_stepping_pass s ev :
  truthy_coll (step_events s)
    && negb (str_in ev (default [] (step_events s))) = false ->
  fst (check_stepping s ev) = (step_ignore s =? 0) /\
  step_ignore (snd (check_stepping s ev)) =
    (if step_ignore s >? 0 then step_ignore s - 1 else step_ignore s) /\
  (step_ignore s = 0 ->
   stop_reason (snd (check_stepping s ev)) = "at a stepping statement").
Proof.
  intros Hf. unfold check_stepping.
  destruct (step_next_stop_cases s ev) as [[F _]|[(_&Z0&E)|[(_&Z0&E)|(_&Z0&E)]]].
  - congruence.
  - rewrite E, Z0. simpl. auto.
  - rewrite E. simpl.
    replace (step_ignore s =? 0) with false by (symmetry; apply Z.eqb_neq; lia).
    replace (step_ignore s >? 0) with true by (symmetry; apply Z.gtb_lt; lia).
    repeat split. lia.
  - rewrite E. simpl.
    replace (step_ignore s =? 0) with false by (symmetry; apply Z.eqb_neq; lia).
    replace (step_ignore s >? 0) with false
      by (symmetry; rewrite Z.gtb_ltb; apply Z.ltb_ge; lia).
    repeat split. lia.
Qed.

(** What [check_stepping] decides for an event outside the step-event set. *)
Lemma check_stepping_filtered s ev :
  truthy_coll (step_events s)
    && negb (str_in ev (default [] (step_events s))) = true ->
  check_stepping s ev = (false, s).
Proof.
  intros Hf. unfold check_stepping.
  destruct (step_next_stop_cases s ev) as [[_ E]|[(F&_)|[(F&_)|(F&_)]]];
    try congruence.
  rewrite E. reflexivity.
Qed.

(** A qualifying event is decided by [check_stepping]. *)
Lemma is_stop_here_qualifying_eq s fr ev :
  qualifying s fr ev = true ->
  exists s1, is_stop_here s fr ev = check_stepping s1 ev /\
    step_events s1 = step_events s /\ step_ignore s1 = step_ignore s /\
    truthy_coll (step_events s1)
      && negb (str_in ev (default [] (step_events s1))) = false.
Proof.
  unfold qualifying, is_stop_here.
  intros H. apply andb_true_iff in H as [H Hev].
  apply andb_true_iff in H as [Hdup Hlvl].
  apply negb_true_iff in Hdup, Hev. rewrite Hdup.
  set (s1 := set_last_position _ _ s) in *.
  change (stop_level s1) with (stop_level s).
  destruct (stop_level s) as [lvl|].
  - apply andb_true_iff in Hlvl as [Hle Hfin]. apply negb_true_iff in Hfin.
    replace (last_level (recompute_level s1 fr) >? lvl) with false
      by (symmetry; rewrite Z.gtb_ltb; apply Z.ltb_ge; lia).
    rewrite Hfin.
    destruct (recompute_level_fields s1 fr) as (E1&E2&_).
    exists (recompute_level s1 fr). rewrite E1, E2. auto.
  - exists s1. auto.
Qed.

(** What [is_stop_here] does with a qualifying event. *)
Lemma is_stop_here_qualifying s fr ev :
  qualifying s fr ev = true ->
  fst (is_stop_here s fr ev) = (step_ignore s =? 0) /\
  step_ignore (snd (is_stop_here s fr ev)) =
    (if step_ignore s >? 0 then step_ignore s - 1 else step_ignore s) /\
  (step_ignore s = 0 ->
   stop_reason (snd (is_stop_here s fr ev)) = "at a stepping statement").
Proof.
  intros Hq.
  destruct (is_stop_here_qualifying_eq s fr ev Hq) as (s1 & -> & _ & E2 & F).
  rewrite <- E2. apply check_stepping_pass. exact F.
Qed.

(** An event of the step-event set, at a depth within [stop_level], is
    qualifying when neither the duplicate check nor a [finish] is active. *)
Lemma qualifying_within_stop_level s fr ev :
  different_line s = false ->
  stop_on_finish s = false ->
  (truthy_coll (step_events s) = true ->
   str_in ev (default [] (step_events s)) = true) ->
  (forall lvl, stop_level s = Some lvl -> depth fr <= lvl) ->
  cache_coherent s fr ->
  qualifying s fr ev = true.
Proof.
  intros Hdl Hfin Hset Hlvl Hc. unfold qualifying. rewrite Hdl. simpl.
  assert (Hev : negb (filtered s ev) = true).
  { destruct (truthy_coll (step_events s)); [|reflexivity].
    rewrite Hset by reflexivity. reflexivity. }
  rewrite Hev, andb_true_r.
  destruct (stop_level s) as [lvl|]; [|reflexivity].
  set (s1 := set_last_position (f_lineno fr) (co_filename (f_code fr)) s).
  rewrite (recompute_level_depth s1 fr) by exact Hc.
  destruct (recompute_level_fields s1 fr) as (_&_&_&E&_).
  rewrite E. change (stop_on_finish s1) with (stop_on_finish s).
  rewrite Hfin, andb_false_r. simpl. rewrite andb_true_r.
  apply Z.leb_le. apply Hlvl. reflexivity.
Qed.




(** What a call of [is_stop_here] leaves alone: the configuration of the
    engine; [stop_level] is kept or cleared; the frame cache is kept or
    refreshed with the frame of the event. *)
Lemma is_stop_here_preserves s fr ev :
  let s' := snd (is_stop_here s fr ev) in
  step_events s' = step_events s /\
  different_line s' = different_line s /\
  stop_on_finish s' = stop_on_finish s /\
  (stop_level s' = stop_level s \/ stop_level s' = None) /\
  ((last_frame s' = last_frame s /\ last_level s' = last_level s) \/
   (last_frame s' = Some (f_id fr) /\ last_level s' = depth fr)).
Proof.
  unfold is_stop_here.
  destruct (different_line s && String.eqb ev "line" && same_position s fr);
    [simpl; auto 10|].
  set (s1 := set_last_position (f_lineno fr) (co_filename (f_code fr)) s).
  change (stop_level s1) with (stop_level s).
  destruct (stop_level s) as [lvl|] eqn:Hlvl.
  - destruct (recompute_level_fields s1 fr) as (E1&_&E3&E4&E5&_).
    pose proof (recompute_level_cache s1 fr) as Hc.
    destruct (last_level (recompute_level s1 fr) >? lvl).
    { simpl. rewrite E1, E3, E4, E5. auto 10. }
    destruct ((last_level (recompute_level s1 fr) =? lvl)
              && stop_on_finish (recompute_level s1 fr) && return_class ev).
    { simpl. rewrite E1, E4, E5. auto 10. }
    destruct (check_stepping_fields (recompute_level s1 fr) ev)
      as (F1&F2&F3&F4&F5&F6&_).
    cbv zeta in *. rewrite F1, F2, F3, F4, F5, F6, E1, E3, E4, E5. auto 10.
  - destruct (check_stepping_fields s1 ev) as (F1&F2&F3&F4&F5&F6&_).
    cbv zeta in *. rewrite F1, F2, F3, F4, F5, F6. simpl. auto 10.
Qed.

(** Every event that gets past the duplicate check leaves its position in
    [last_lineno] and [last_filename]. *)
Lemma is_stop_here_records s fr ev :
  different_line s && String.eqb ev "line" && same_position s fr = false ->
  last_lineno (snd (is_stop_here s fr ev)) = Some (f_lineno fr) /\
  last_filename (snd (is_stop_here s fr ev)) = Some (co_filename (f_code fr)).
Proof.
  intros Hpass. unfold is_stop_here. rewrite Hpass.
  set (s1 := set_last_position (f_lineno fr) (co_filename (f_code fr)) s).
  destruct (stop_level s1) as [lvl|].
  - destruct (recompute_level_fields s1 fr) as (_&_&_&_&_&E6&E7&_).
    destruct (last_level (recompute_level s1 fr) >? lvl).
    { simpl. rewrite E6, E7. auto. }
    destruct ((last_level (recompute_level s1 fr) =? lvl)
              && stop_on_finish (recompute_level s1 fr) && return_class ev).
    { simpl. rewrite E6, E7. auto. }
    destruct (check_stepping_fields (recompute_level s1 fr) ev)
      as (_&_&_&_&_&_&F7&F8).
    cbv zeta in *. rewrite F7, F8, E6, E7. auto.
  - destruct (check_stepping_fields s1 ev) as (_&_&_&_&_&_&F7&F8).
    cbv zeta in *. rewrite F7, F8. auto.
Qed.

(** After any call, the recorded position is that of the event's frame. *)
Lemma is_stop_here_position s fr ev :
  same_position (snd (is_stop_here s fr ev)) fr = true.
Proof.
  destruct (different_line s && String.eqb ev "line" && same_position s fr)
    eqn:Hdup.
  - unfold is_stop_here. rewrite Hdup. simpl.
    apply andb_true_iff in Hdup as [_ H]. exact H.
  - destruct (is_stop_here_records s fr ev Hdup) as [E1 E2].
    unfold same_position. rewrite E1, E2.
    rewrite Z.eqb_refl, String.eqb_refl. reflexivity.
Qed.


Lemma check_stepping_different_line s ev b :
  fst (check_stepping (set_different_line b s) ev) = fst (check_stepping s ev).
Proof.
  unfold check_stepping, _is_step_next_stop. simpl.
  destruct (truthy_coll (step_events s)
            && negb (str_in ev (default [] (step_events s)))); [reflexivity|].
  destruct (step_ignore s =? 0); [reflexivity|].
  destruct (step_ignore s >? 0); reflexivity.
Qed.

(** C5: with [different_line] enabled, of two consecutive line events at the
    same (file, line) the second never stops, so the pair produces at most
    one stop; an event at a position other than the recorded one is decided
    as if the duplicate check were absent, and stops when stepping is due;
    every event that passes the duplicate check updates the recorded
    (line, file), whatever the decision. *)
Theorem different_line_suppression (s : stop_state) (fr1 fr2 : frame)
    (ev : string) :
  different_line s = true ->
  (f_lineno fr1 = f_lineno fr2 ->
   co_filename (f_code fr1) = co_filename (f_code fr2) ->
   let r1 := is_stop_here s fr1 "line" in
   let r2 := is_stop_here (snd r1) fr2 "line" in
   fst r2 = false /\ fst r1 && fst r2 = false) /\
  (same_position s fr1 = false ->
   fst (is_stop_here s fr1 ev)
     = fst (is_stop_here (set_different_line false s) fr1 ev) /\
   (stop_level s = None -> step_events s = None -> step_ignore s = 0 ->
    fst (is_stop_here s fr1 ev) = true)) /\
  (different_line s && String.eqb ev "line" && same_position s fr1 = false ->
   last_lineno (snd (is_stop_here s fr1 ev)) = Some (f_lineno fr1) /\
   last_filename (snd (is_stop_here s fr1 ev))
     = Some (co_filename (f_code fr1))).
Proof.
  intros Hdl. split; [|split].
  - intros Hline Hfile r1 r2.
    assert (E : fst r2 = false).
    { subst r2. unfold is_stop_here at 1.
      destruct (is_stop_here_preserves s fr1 "line") as (_ & Hd & _).
      fold r1 in Hd. rewrite Hd, Hdl. simpl.
      pose proof (is_stop_here_position s fr1 "line") as Hp. fold r1 in Hp.
      unfold same_position in *. rewrite <- Hline, <- Hfile, Hp. reflexivity. }
    split; [exact E|]. rewrite E. apply andb_false_r.
  - intros Hpos. split.
    + unfold is_stop_here. rewrite Hpos, andb_false_r. simpl.
      set (s1 := set_last_position _ _ s).
      set (t1 := set_last_position _ _ (set_different_line false s)).
      change t1 with (set_different_line false s1).
      change (stop_level (set_different_line false s1)) with (stop_level s1).
      assert (R : recompute_level (set_different_line false s1) fr1
                  = set_different_line false (recompute_level s1 fr1)).
      { unfold recompute_level.
        change (frame_changed (set_different_line false s1) fr1)
          with (frame_changed s1 fr1).
        destruct (frame_changed s1 fr1); reflexivity. }
      change (stop_level s1) with (stop_level s).
      destruct (stop_level s) as [lvl|].
      * rewrite R. cbv zeta.
        change (last_level (set_different_line false (recompute_level s1 fr1)))
          with (last_level (recompute_level s1 fr1)).
        change (stop_on_finish (set_different_line false (recompute_level s1 fr1)))
          with (stop_on_finish (recompute_level s1 fr1)).
        destruct (last_level (recompute_level s1 fr1) >? lvl); [reflexivity|].
        destruct ((last_level (recompute_level s1 fr1) =? lvl)
                  && stop_on_finish (recompute_level s1 fr1) && return_class ev);
          [reflexivity|].
        symmetry. apply check_stepping_different_line.
      * symmetry. apply check_stepping_different_line.
    + intros Hnone Hev Hzero. unfold is_stop_here. rewrite Hpos, andb_false_r.
      simpl. rewrite Hnone. unfold check_stepping, _is_step_next_stop. simpl.
      rewrite Hev, Hzero. reflexivity.
  - apply is_stop_here_records.
Qed.

(** The frame cache starts coherent and stays so, as long as frames with
    the same identity have the same depth. *)
Lemma cache_coherent_init n fr : cache_coherent (init_stop_state n) fr.
Proof. intros H. discriminate H. Qed.

Lemma cache_coherent_invariant s fr ev fr' :
  (f_id fr = f_id fr' -> depth fr = depth fr') ->
  cache_coherent s fr' ->
  cache_coherent (snd (is_stop_here s fr ev)) fr'.
Proof.
  intros Hid Hc. unfold cache_coherent in *.
  destruct (is_stop_here_preserves s fr ev) as (_&_&_&_&[[E1 E2]|[E1 E2]]);
    cbv zeta in *; rewrite E1, E2.
  - exact Hc.
  - intros H. injection H as H. auto.
Qed.

Lemma scenario_inv_next frames d n s fr ev m :
  scenario_inv frames d n s -> In fr frames ->
  step_ignore (snd (is_stop_here s fr ev)) = m ->
  scenario_inv frames d m (snd (is_stop_here s fr ev)).
Proof.
  intros (He & Hn & Hd & Hl & Hc) Hin Hm.
  destruct (is_stop_here_preserves s fr ev) as (E1 & E2 & _ & E4 & E5).
  cbv zeta in *. repeat split.
  - congruence.
  - exact Hm.
  - congruence.
  - intros lvl Hlvl. destruct E4 as [E4|E4]; rewrite E4 in Hlvl;
      [auto|discriminate].
  - apply Hc; assumption.
  - unfold cache_coherent. intros Hlast.
    destruct (Hc fr0 H) as [Hd0 Hc0]. destruct (Hc fr Hin) as [Hdfr _].
    destruct E5 as [[F1 F2]|[F1 F2]].
    + rewrite F2. apply Hc0. congruence.
    + rewrite F2. congruence.
Qed.

Lemma scenario_qualifying frames d n s fr :
  scenario_inv frames d n s -> In fr frames -> qualifying s fr "line" = true.
Proof.
  intros (He & Hn & Hd & Hl & Hc) Hin. unfold qualifying.
  rewrite Hd, He. simpl.
  destruct (stop_level s) as [lvl|] eqn:Hlvl; [|reflexivity].
  destruct (Hc fr Hin) as [Hdfr Hcfr].
  rewrite (recompute_level_depth
             (set_last_position (f_lineno fr) (co_filename (f_code fr)) s) fr)
    by exact Hcfr.
  change (return_class "line") with false.
  rewrite andb_false_r. simpl. rewrite !andb_true_r.
  apply Z.leb_le. rewrite Hdfr. auto.
Qed.

Lemma scenario_call frames d n s fr :
  scenario_inv frames d n s -> In fr frames ->
  fst (is_stop_here s fr "call") = false /\
  step_ignore (snd (is_stop_here s fr "call")) = n.
Proof.
  intros (He & Hn & Hd & Hl & Hc) Hin. unfold is_stop_here.
  rewrite Hd. simpl.
  set (s1 := set_last_position _ _ s).
  assert (Hf : forall s2, step_events s2 = step_events s ->
            check_stepping s2 "call" = (false, s2)).
  { intros s2 E1. apply check_stepping_filtered. rewrite E1, He. reflexivity. }
  destruct (stop_level s) as [lvl|] eqn:Hlvl.
  - destruct (recompute_level_fields s1 fr) as (F1 & F2 & _).
    destruct (last_level (recompute_level s1 fr) >? lvl);
      [simpl; split; [reflexivity|rewrite F2; exact Hn]|].
    change (return_class "call") with false. rewrite andb_false_r.
    rewrite Hf by exact F1. simpl. split; [reflexivity|rewrite F2; exact Hn].
  - rewrite Hf by reflexivity. simpl. auto.
Qed.

(** C6, as amended: with [step_events] = {line} and [step_ignore] = 2, the
    events [line, call, line, line] at constant depth within [stop_level]
    yield exactly one stop, at the 4th event of the list (the third line
    event): the call event is filtered by [step_events] and does not
    decrement [step_ignore]. *)
Theorem step_events_scenario (s : stop_state) (fr1 fr2 fr3 fr4 : frame)
    (d : Z) :
  step_events s = Some ["line"] ->
  step_ignore s = 2 ->
  different_line s = false ->
  (forall lvl, stop_level s = Some lvl -> d <= lvl) ->
  (forall fr, In fr [fr1; fr2; fr3; fr4] ->
     depth fr = d /\ cache_coherent s fr) ->
  let decisions :=
    List.map fst (run_events s [(fr1, "line"); (fr2, "call");
                                (fr3, "line"); (fr4, "line")]) in
  decisions = [false; false; false; true] /\ stops_only_at 3 decisions.
Proof.
  intros He Hn Hd Hl Hc.
  assert (I0 : scenario_inv [fr1; fr2; fr3; fr4] d 2 s) by (repeat split; auto; apply Hc; auto).
  assert (Hdec : List.map fst (run_events s [(fr1, "line"); (fr2, "call");
                                (fr3, "line"); (fr4, "line")])
                 = [false; false; false; true]).
  { simpl.
    (* first line event: skipped, 2 -> 1 *)
    assert (In1 : In fr1 [fr1; fr2; fr3; fr4]) by (simpl; auto).
    destruct (is_stop_here_qualifying s fr1 "line"
                (scenario_qualifying _ _ _ _ _ I0 In1)) as (D1 & G1 & _).
    rewrite Hn in D1, G1. simpl in D1, G1.
    pose proof (scenario_inv_next _ _ _ _ _ _ _ I0 In1 G1) as I1.
    set (s1 := snd (is_stop_here s fr1 "line")) in *.
    (* call event: filtered *)
    assert (In2 : In fr2 [fr1; fr2; fr3; fr4]) by (simpl; auto).
    destruct (scenario_call _ _ _ _ _ I1 In2) as (D2 & G2).
    pose proof (scenario_inv_next _ _ _ _ _ _ _ I1 In2 G2) as I2.
    set (s2 := snd (is_stop_here s1 fr2 "call")) in *.
    (* second line event: skipped, 1 -> 0 *)
    assert (In3 : In fr3 [fr1; fr2; fr3; fr4]) by (simpl; auto).
    destruct (is_stop_here_qualifying s2 fr3 "line"
                (scenario_qualifying _ _ _ _ _ I2 In3)) as (D3 & G3 & _).
    rewrite G2 in D3, G3. simpl in D3, G3.
    pose proof (scenario_inv_next _ _ _ _ _ _ _ I2 In3 G3) as I3.
    set (s3 := snd (is_stop_here s2 fr3 "line")) in *.
    (* third line event: stop *)
    assert (In4 : In fr4 [fr1; fr2; fr3; fr4]) by (simpl; auto 6).
    destruct (is_stop_here_qualifying s3 fr4 "line"
                (scenario_qualifying _ _ _ _ _ I3 In4)) as (D4 & _).
    rewrite G3 in D4. simpl in D4.
    rewrite D1, D2, D3, D4. reflexivity. }
  cbv zeta. rewrite Hdec. split; [reflexivity|].
  intros i. split.
  - intros Hi. do 4 (destruct i as [|i]; [try discriminate Hi; auto|]).
    destruct i; discriminate Hi.
  - intros ->. reflexivity.
Qed.

End EngineProperties.

(** * Runs of the engine, with the [count_frames] of [stack.py] *)
Section EngineExamples.
Import Core Engine.

#[local] Existing Instance chain_length.



Lemma different_line_suppression_witness :
  let r1 := is_stop_here line_stepping (frame_at_depth 1 "a.py" 10) "line" in
  fst r1 = true /\
  fst (is_stop_here (snd r1) (frame_at_depth 1 "a.py" 10) "line") = false /\
  fst (is_stop_here (snd r1) (frame_at_depth 1 "a.py" 11) "line") = true.
Proof.
  cbv zeta. split; [reflexivity|]. split.
  - apply (different_line_suppression line_stepping
             (frame_at_depth 1 "a.py" 10) (frame_at_depth 1 "a.py" 10) "line");
      reflexivity.
  - reflexivity.
Defined.

Lemma step_events_scenario_witness :
  List.map fst (run_events scenario_state scenario_events)
  = [false; false; false; true].
Proof.
  apply (step_events_scenario scenario_state
           (frame_at_depth 2 "a.py" 1) (frame_at_depth 2 "a.py" 2)
           (frame_at_depth 2 "a.py" 3) (frame_at_depth 2 "a.py" 4) 2);
    try reflexivity.
  - intros lvl H. injection H as <-. lia.
  - intros fr Hin. split.
    + destruct Hin as [<-|[<-|[<-|[<-|[]]]]]; reflexivity.
    + intros H. discriminate H.
Defined.

(** C6, as stated, fails: the scenario does not stop at the 3rd event of
    the list (position 2 counted from 0); that event is the second line
    event and is still skipped. *)
Lemma step_events_scenario_counterexample :
  ~ stops_only_at 2 (List.map fst (run_events scenario_state scenario_events)).
Proof.
  intros H. destruct (H 2%nat) as [_ H2].
  specialize (H2 eq_refl). vm_compute in H2. discriminate H2.
Qed.

End EngineExamples.

(** * The cache of canonic file names *)
Section CanonicCache.
Import FileNames.

Lemma canonic_hit sep unmap_file fs filename st c :
  is_bracketed filename = false ->
  filename_cache st !! filename = Some c -> c <> EmptyString ->
  canonic sep unmap_file fs filename st
  = (match unmap_file with Some unmap => unmap c | None => c end, st).
Proof.
  intros Hb Hc Hne. unfold canonic. rewrite Hb, Hc. cbn [truthy_str].
  destruct (String.eqb_spec c EmptyString); [contradiction|]. reflexivity.
Qed.

Lemma canonic_miss sep unmap_file fs filename st :
  is_bracketed filename = false ->
  truthy_str (filename_cache st !! filename) = false ->
  exists c,
    canonic sep unmap_file fs filename st
    = (match unmap_file with Some unmap => unmap c | None => c end,
       Names (<[filename := c]> (filename_cache st))
         (main_dirname st) (search_path st)).
Proof.
  intros Hb Hc. unfold canonic. rewrite Hb, Hc. eexists. reflexivity.
Qed.

(** Asking [canonic] again, with the same file system, gives the same
    answer and leaves the cache as the first call left it. *)
Lemma canonic_again sep unmap_file fs filename st :
  canonic sep unmap_file fs filename
    (snd (canonic sep unmap_file fs filename st))
  = canonic sep unmap_file fs filename st.
Proof.
  destruct (is_bracketed filename) eqn:Hb.
  - assert (E : canonic sep unmap_file fs filename st = (filename, st))
      by (unfold canonic; rewrite Hb; reflexivity).
    rewrite E. exact E.
  - destruct (truthy_str (filename_cache st !! filename)) eqn:Hc.
    + destruct (filename_cache st !! filename) as [c|] eqn:Hl;
        [|discriminate Hc].
      assert (Hne : c <> EmptyString) by (intros ->; discriminate Hc).
      rewrite (canonic_hit sep unmap_file fs filename st c Hb Hl Hne).
      apply canonic_hit; assumption.
    + unfold canonic. rewrite Hb, Hc.
      set (c := realpath fs _).
      cbn [snd filename_cache main_dirname search_path].
      rewrite lookup_insert_eq. fold c.
      destruct (truthy_str (Some c)); [reflexivity|].
      rewrite insert_insert_eq. reflexivity.
Qed.

End CanonicCache.

(** * Properties of the event dispatch core *)
Section DispatchProperties.
Import BreakpointManager Core Dispatching.

(** C10: for a frame excluded by the ignore filter, [trace_dispatch] returns
    the core object itself before assigning any state: no field of the core
    changes (among them [event], [arg], [step_ignore], [last_lineno] and
    [last_filename]) and nothing else is done. *)
Theorem excluded_frame_untouched
    (py_eval : string -> frame -> outcome pyval)
    (event_processor : frame -> string -> pyarg -> core -> outcome pyval * core)
    (event_filters : gmap string (list string))
    (c : core) (fr : frame) (ev : string) (a : pyarg) (flt : TraceFilter.t) :
  ignore_filter c = Some flt ->
  TraceFilter.is_excluded flt fr = true ->
  let d := trace_dispatch py_eval event_processor event_filters c fr ev a in
  d = Dispatched (Returns TokSelf) c [] /\
  event (d_core d) = event c /\
  arg (d_core d) = arg c /\
  step_ignore (engine (d_core d)) = step_ignore (engine c) /\
  last_lineno (engine (d_core d)) = last_lineno (engine c) /\
  last_filename (engine (d_core d)) = last_filename (engine c).
Proof.
  intros Hflt Hex. unfold trace_dispatch. rewrite Hflt, Hex.
  cbv zeta. simpl. repeat split; reflexivity.
Qed.

Lemma excluded_frame_untouched_witness :
  trace_dispatch failing_eval resuming_processor some_filters
    fresh_core (frame_in 7 "tracer.py" 3) "line" (ArgValue PyNone)
  = Dispatched (Returns TokSelf) fresh_core [].
Proof.
  apply (excluded_frame_untouched failing_eval resuming_processor some_filters
           fresh_core (frame_in 7 "tracer.py" 3) "line" (ArgValue PyNone)
           (TraceFilter.Filter {[ 7%nat ]})).
  - reflexivity.
  - vm_compute. reflexivity.
Defined.

Lemma handled_event_false ev :
  handled_event ev = false ->
  String.eqb ev "mpmath" = false /\ String.eqb ev "SymPy" = false /\
  String.eqb ev "Get" = false /\ String.eqb ev "evaluate-result" = false /\
  String.eqb ev "evaluate-entry" = false.
Proof.
  unfold handled_event, str_in. simpl. intros H.
  repeat (apply orb_false_iff in H as [? H]). auto.
Qed.

(** An event whose type has a filter entry but no branch of its own ends in
    the last [else] of [trace_dispatch]. *)
Lemma dispatch_gates_unhandled py_eval event_processor event_filters
    log c fr ev a flt :
  condition_holds py_eval c fr = true ->
  traced c = true ->
  event_filters !! ev = Some flt ->
  handled_event ev = false ->
  dispatch_gates py_eval event_processor event_filters log c fr ev a
  = Dispatched (Returns TokNone) (set_arg a c)
      (log ++ [Printed ("FIXME: Unhandled event " +:+ ev)]).
Proof.
  intros Hcond Htr Hflt Hun.
  destruct (handled_event_false ev Hun) as (E1&E2&E3&E4&E5).
  assert (Hafter :
    match events (dbg_settings c) with
    | None => Dispatched (Returns TokSelf) c log
    | Some trace_event_set =>
        if negb (event_in c trace_event_set)
        then Dispatched (Returns TokSelf) c log
        else
          match event_filters !! ev with
          | Some flt0 =>
              match filter_event (set_arg a c) fr ev a flt0 with
              | (Some d, _) =>
                  Dispatched (d_token d) (d_core d) (log ++ d_effects d)
              | (None, c2) => hand_over event_processor log c2 fr ev a
              end
          | None => hand_over event_processor log (set_arg a c) fr ev a
          end
    end = Dispatched (Returns TokNone) (set_arg a c)
            (log ++ [Printed ("FIXME: Unhandled event " +:+ ev)])).
  { unfold traced in Htr. destruct (events (dbg_settings c)); [|discriminate].
    rewrite Htr, Hflt. simpl. unfold filter_event.
    rewrite E1, E2, E3, E4, E5. reflexivity. }
  unfold dispatch_gates. unfold condition_holds in Hcond.
  destruct (truthy_str (until_condition c)); [|exact Hafter].
  destruct (matches_condition py_eval c fr) as [v|]; [|discriminate].
  rewrite Hcond. exact Hafter.
Qed.

(** C9, as amended: a trace event that reaches the per-event-type filters
    (frame not excluded, "run until" gate passed, event in the traced set),
    whose type has a filter entry but no branch of its own, makes
    [trace_dispatch] print the diagnostic once, raise nothing and return
    [None] without handing the event to the command processor at the end;
    the only call of the processor is the echo of trace events, made before
    the gates when the trace toggle is set and the event is in the display
    set. *)
Theorem unhandled_event_reported
    (py_eval : string -> frame -> outcome pyval)
    (event_processor : frame -> string -> pyarg -> core -> outcome pyval * core)
    (event_filters : gmap string (list string))
    (c : core) (fr : frame) (ev : string) (a : pyarg) (flt : list string) :
  excluded c fr = false ->
  event_filters !! ev = Some flt ->
  handled_event ev = false ->
  let c1 := set_event (Some ev) c in
  let d := trace_dispatch py_eval event_processor event_filters c fr ev a in
  let diagnostic := Printed ("FIXME: Unhandled event " +:+ ev) in
  (echo_fires c1 = false ->
   condition_holds py_eval c1 fr = true -> traced c1 = true ->
   d = Dispatched (Returns TokNone) (set_arg a c1) [diagnostic] /\
   processor_not_invoked d) /\
  (echo_fires c1 = true ->
   forall v c2, event_processor fr ev a c1 = (Returns v, c2) ->
   condition_holds py_eval c2 fr = true -> traced c2 = true ->
   d = Dispatched (Returns TokNone) (set_arg a c2)
         [ProcessorCall fr ev a; diagnostic]).
Proof.
  intros Hex Hflt Hun c1 d diagnostic. subst d.
  unfold trace_dispatch. unfold excluded in Hex. rewrite Hex. fold c1.
  split.
  - intros Hecho Hcond Htr. unfold echo_fires in Hecho. rewrite Hecho.
    rewrite (dispatch_gates_unhandled _ _ _ [] c1 fr ev a flt Hcond Htr Hflt Hun).
    split; [reflexivity|].
    intros fr' ev' a' [Hin|[]]. discriminate Hin.
  - intros Hecho v c2 Hproc Hcond Htr. unfold echo_fires in Hecho.
    rewrite Hecho. simpl. rewrite Hproc.
    apply (dispatch_gates_unhandled _ _ _ [ProcessorCall fr ev a] c2 fr ev a flt
             Hcond Htr Hflt Hun).
Qed.

Lemma unhandled_event_reported_witness :
  trace_dispatch failing_eval resuming_processor some_filters fresh_core
    (frame_in 1 "a.py" 10) "debugger" (ArgValue PyNone)
  = Dispatched (Returns TokNone)
      (set_arg (ArgValue PyNone) (set_event (Some "debugger") fresh_core))
      [Printed "FIXME: Unhandled event debugger"].
Proof.
  apply (unhandled_event_reported failing_eval resuming_processor some_filters
           fresh_core (frame_in 1 "a.py" 10) "debugger" (ArgValue PyNone)
           ["Plus"]); vm_compute; reflexivity.
Defined.

(** C9, as stated, fails when the echo of trace events is on: the command
    processor is invoked for an event of an unhandled type. *)
Lemma unhandled_event_echo_counterexample :
  handled_event "debugger" = false /\
  some_filters !! "debugger" = Some ["Plus"] /\
  ~ processor_not_invoked
      (trace_dispatch failing_eval resuming_processor some_filters
         (with_settings (Settings true ["debugger"] (Some all_events)) fresh_core)
         (frame_in 1 "a.py" 10) "debugger" (ArgValue PyNone)).
Proof.
  split; [reflexivity|]. split; [vm_compute; reflexivity|].
  intros H.
  apply (H (frame_in 1 "a.py" 10) "debugger" (ArgValue PyNone)).
  vm_compute. left. reflexivity.
Qed.

(** C2: the code at the failing input.  The condition expression raises;
    [trace_dispatch] returns the core object without invoking the command
    processor, where the same event without a condition is handed over. *)
Theorem failing_condition_skips_stop :
  let c := with_condition "1/0" fresh_core in
  let fr := frame_in 1 "a.py" 10 in
  let d := trace_dispatch failing_eval resuming_processor some_filters
             c fr "line" (ArgValue PyNone) in
  matches_condition failing_eval c fr = Returns (PyBool false) /\
  d = Dispatched (Returns TokSelf) (set_event (Some "line") c) [] /\
  processor_not_invoked d /\
  d_effects (trace_dispatch failing_eval resuming_processor some_filters
               fresh_core fr "line" (ArgValue PyNone))
  = [ProcessorCall fr "line" (ArgValue PyNone)].
Proof.
  cbv zeta. split; [reflexivity|]. split; [vm_compute; reflexivity|].
  split; [|vm_compute; reflexivity].
  intros fr' ev' a' Hin. vm_compute in Hin. exact Hin.
Qed.

(** Whenever the condition expression raises an exception, the event is
    dropped at the gate. *)
Lemma failing_condition_drops py_eval event_processor event_filters
    log c fr ev a cond e :
  until_condition c = Some cond -> cond <> EmptyString ->
  py_eval cond fr = Raises e -> is_Exception e = true ->
  dispatch_gates py_eval event_processor event_filters log c fr ev a
  = Dispatched (Returns TokSelf) c log.
Proof.
  intros Hc Hne He Hexc. unfold dispatch_gates, matches_condition, truthy_str.
  rewrite Hc, He, Hexc.
  destruct (String.eqb_spec cond EmptyString); [contradiction|]. reflexivity.
Qed.

Lemma same_bp_refl bp : same_bp bp bp = true.
Proof. apply Z.eqb_refl. Qed.

Lemma not_in_remove_bp bp l : ~ In bp (remove_bp bp l).
Proof.
  unfold remove_bp. intros H. apply filter_In in H as [_ H].
  rewrite same_bp_refl in H. discriminate H.
Qed.

(** After [delete_breakpoint] the breakpoint is in neither index. *)
Lemma delete_unregisters m bp :
  well_indexed m -> ~ registered (delete_breakpoint bp m) bp.
Proof.
  intros Hwf [(key & l & Hl & Hin)|(fn & l & Hl & Hin)].
  - unfold delete_breakpoint in Hl. simpl in Hl.
    destruct (bplist m !! (bp_filename bp, bp_line bp)) as [l0|] eqn:E0.
    + destruct (remove_bp bp l0) as [|b l'] eqn:Er.
      * destruct (decide (key = (bp_filename bp, bp_line bp))) as [->|Hne].
        -- rewrite lookup_delete_eq in Hl. discriminate Hl.
        -- rewrite lookup_delete_ne in Hl by congruence.
           apply Hne. exact (Hwf key l bp Hl Hin).
      * destruct (decide (key = (bp_filename bp, bp_line bp))) as [->|Hne].
        -- rewrite lookup_insert_eq in Hl. injection Hl as <-.
           rewrite <- Er in Hin. exact (not_in_remove_bp bp l0 Hin).
        -- rewrite lookup_insert_ne in Hl by congruence.
           apply Hne. exact (Hwf key l bp Hl Hin).
    + pose proof (Hwf key l bp Hl Hin) as ->. congruence.
  - unfold delete_breakpoint in Hl. simpl in Hl.
    apply filter_In in Hl as [Hl _]. apply in_map_iff in Hl as ([fn0 l0] & E & _).
    injection E as _ <-. exact (not_in_remove_bp bp l0 Hin).
Qed.

(** Deleting the only breakpoint of a location and of a function name
    leaves nothing recorded for them. *)
Lemma delete_alone m bp key fname :
  well_indexed m -> alone_at m bp key fname ->
  bplist (delete_breakpoint bp m) !! key = None /\
  scan_fnlist fname (fnlist (delete_breakpoint bp m)) = None.
Proof.
  intros Hwf [Hb Hf]. split.
  - assert (Hkey : forall l, bplist m !! key = Some l ->
              key = (bp_filename bp, bp_line bp)).
    { intros l Hl. apply (Hwf key l bp Hl). rewrite (Hb l Hl). left. reflexivity. }
    unfold delete_breakpoint. simpl.
    destruct (bplist m !! (bp_filename bp, bp_line bp)) as [l0|] eqn:E0.
    + destruct (decide (key = (bp_filename bp, bp_line bp))) as [->|Hne].
      * rewrite (Hb l0 E0). unfold remove_bp. simpl.
        rewrite same_bp_refl. simpl. apply lookup_delete_eq.
      * assert (Hnone : bplist m !! key = None).
        { destruct (bplist m !! key) as [l|] eqn:E; [|reflexivity].
          contradiction (Hne (Hkey l eq_refl)). }
        destruct (remove_bp bp l0).
        -- rewrite lookup_delete_ne by congruence. exact Hnone.
        -- rewrite lookup_insert_ne by congruence. exact Hnone.
    + destruct (bplist m !! key) as [l|] eqn:E; [|reflexivity].
      rewrite (Hkey l eq_refl) in E. congruence.
  - unfold delete_breakpoint. simpl.
    induction (fnlist m) as [|[fn l] rest IH]; [reflexivity|].
    assert (IH' : scan_fnlist fname
                    (List.filter (fun '(_, l0) => match l0 with
                                                  | [] => false
                                                  | _ => true
                                                  end)
                       (List.map (fun '(fn0, l0) => (fn0, remove_bp bp l0)) rest))
                  = None).
    { apply IH. intros fn' l' Hin. apply (Hf fn' l'). right. exact Hin. }
    simpl. destruct (String.eqb_spec (fn_name fn) fname) as [Hname|Hname].
    + rewrite (Hf fn l (or_introl eq_refl) Hname).
      unfold remove_bp at 1. simpl. rewrite same_bp_refl. simpl. exact IH'.
    + destruct (remove_bp bp l); [exact IH'|].
      simpl. destruct (String.eqb_spec (fn_name fn) fname); [contradiction|].
      exact IH'.
Qed.

(** [is_break_here] after its first statement: the name is the canonic
    name, and the rest runs in the core that [canonic] left, which differs
    from [c] in the file-name cache only. *)
Lemma is_break_here_after_canonic sep unmap_file fs py_eval c fr :
  let filename := canonic_name sep unmap_file fs c fr in
  let c0 := snd (canonic sep unmap_file fs (co_filename (f_code fr)) c) in
  let line_check :=
    if bool_decide ((filename, f_lineno fr) ∈ dom (bplist (bpmgr c)))
    then
      match find_bp py_eval (bpmgr c) filename (f_lineno fr) fr with
      | (Some bp, clear_bp) =>
          (Returns true, hit "line" bp (clear_bp && temporary bp) c0)
      | (None, _) => (Returns false, c0)
      end
    else (Returns false, c0) in
  is_break_here sep unmap_file fs py_eval c fr
  = if bool_decide (event c = Some "call") then
      match scan_fnlist (co_name (f_code fr)) (fnlist (bpmgr c)) with
      | Some [] => (Raises IndexError, c0)
      | Some (bp :: _) => (Returns true, hit "call" bp (temporary bp) c0)
      | None => line_check
      end
    else line_check.
Proof. reflexivity. Qed.

(** With nothing recorded for the frame's location and function, the event
    is not a breakpoint hit. *)
Lemma no_break_without_breakpoints sep unmap_file fs py_eval c fr :
  bplist (bpmgr c) !! (canonic_name sep unmap_file fs c fr, f_lineno fr)
    = None ->
  scan_fnlist (co_name (f_code fr)) (fnlist (bpmgr c)) = None ->
  fst (is_break_here sep unmap_file fs py_eval c fr) = Returns false.
Proof.
  intros Hb Hf. rewrite is_break_here_after_canonic. cbv zeta. rewrite Hf.
  assert (E : bool_decide ((canonic_name sep unmap_file fs c fr, f_lineno fr)
                           ∈ dom (bplist (bpmgr c))) = false).
  { apply bool_decide_eq_false. rewrite elem_of_dom, Hb.
    intros [x Hx]. discriminate Hx. }
  rewrite E. destruct (bool_decide (event c = Some "call")); reflexivity.
Qed.

(** A second pass through the same location, with the same file system,
    finds the same canonic name. *)
Lemma canonic_name_again sep unmap_file fs c fr c' :
  file_names c'
    = file_names (snd (canonic sep unmap_file fs (co_filename (f_code fr)) c)) ->
  canonic_name sep unmap_file fs c' fr = canonic_name sep unmap_file fs c fr.
Proof.
  intros E. unfold canonic_name, canonic in *. cbv zeta in *.
  cbn [fst snd] in *. rewrite E. unfold set_file_names. cbn [file_names].
  rewrite canonic_again. reflexivity.
Qed.

Lemma find_bp_some py_eval m file line fr bp flag :
  find_bp py_eval m file line fr = (Some bp, flag) ->
  (file, line) ∈ dom (bplist m).
Proof.
  unfold find_bp. intros H. apply elem_of_dom.
  destruct (bplist m !! (file, line)) as [l|]; [eauto|].
  simpl in H. discriminate H.
Qed.

(** The state after a hit that deletes the breakpoint. *)
Lemma hit_deleting kind bp c :
  let c1 := hit kind bp true c in
  current_bp c1 = Some bp /\
  stop_reason (engine c1)
    = "at temporary " +:+ kind +:+ " breakpoint " +:+ pretty (number bp) /\
  bpmgr c1 = delete_breakpoint bp (bpmgr c).
Proof. cbv zeta. unfold hit. simpl. auto. Qed.

Lemma str_contains_suffix needle pre :
  str_contains needle (pre +:+ needle) = true.
Proof.
  induction pre as [|a pre IH].
  - simpl. destruct needle as [|b needle]; simpl.
    + reflexivity.
    + assert (P : forall s, String.prefix s s = true).
      { induction s as [|x s IHs]; simpl; [reflexivity|].
        destruct (Ascii.ascii_dec x x); [exact IHs|contradiction]. }
      change (String.prefix (String b needle) (String b needle)
              || str_contains (String b needle) needle = true).
      rewrite P. reflexivity.
  - change (String.prefix needle (String a (pre +:+ needle))
            || str_contains needle (pre +:+ needle) = true).
    rewrite IH. apply orb_true_r.
Qed.

(** C4, as amended: a temporary breakpoint that an event hits with the
    manager's leave to delete it (on a call event it is the first
    breakpoint of the called function; else [find_bp] reports it with the
    flag set) causes a stop, sets [stop_reason] to "at temporary line
    breakpoint N" or "at temporary call breakpoint N", and is deleted; when
    no other breakpoint is set at that location or for that function, a
    second pass through the same location does not stop. *)
Theorem temporary_breakpoint_once
    (sep : ascii) (unmap_file : option (string -> string))
    (fs : FileNames.file_system)
    (py_eval : string -> frame -> outcome pyval)
    (c : core) (fr : frame) (bp : breakpoint) :
  temporary bp = true ->
  well_indexed (bpmgr c) ->
  hits_deletable sep unmap_file fs py_eval c fr bp ->
  let c1 := snd (is_break_here sep unmap_file fs py_eval c fr) in
  hits sep unmap_file fs py_eval c fr bp /\
  (exists kind, (kind = "line" \/ kind = "call") /\
     stop_reason (engine c1)
       = "at temporary " +:+ kind +:+ " breakpoint " +:+ pretty (number bp)) /\
  ~ registered (bpmgr c1) bp /\
  (alone_at (bpmgr c) bp
     (canonic_name sep unmap_file fs c fr, f_lineno fr)
     (co_name (f_code fr)) ->
   temporary_once sep unmap_file fs py_eval c fr bp).
Proof.
  intros Htemp Hwf Hhit.
  set (c0 := snd (canonic sep unmap_file fs (co_filename (f_code fr)) c)).
  assert (Hshape : exists kind, (kind = "line" \/ kind = "call") /\
            is_break_here sep unmap_file fs py_eval c fr
            = (Returns true, hit kind bp true c0)).
  { rewrite is_break_here_after_canonic. cbv zeta. fold c0.
    destruct Hhit as [[Hev (rest & Hscan)]|[Hline Hfind]].
    - exists "call". split; [auto|].
      rewrite Hev, Hscan, Htemp. reflexivity.
    - exists "line". split; [auto|].
      pose proof (find_bp_some _ _ _ _ _ _ _ Hfind) as Hdom.
      rewrite (bool_decide_eq_true_2 _ Hdom), Hfind, Htemp. simpl.
      destruct Hline as [Hne|Hnone].
      + rewrite (bool_decide_eq_false_2 _ Hne). reflexivity.
      + rewrite Hnone. destruct (bool_decide (event c = Some "call")); reflexivity. }
  destruct Hshape as (kind & Hkind & Heq).
  destruct (hit_deleting kind bp c0) as (Hcur & Hreason & Hmgr).
  change (bpmgr c0) with (bpmgr c) in Hmgr.
  cbv zeta in *. unfold hits, temporary_once. rewrite Heq. cbn [fst snd].
  assert (Hunreg : ~ registered (bpmgr (hit kind bp true c0)) bp)
    by (rewrite Hmgr; apply delete_unregisters; exact Hwf).
  split; [auto|]. split; [eauto|]. split; [exact Hunreg|].
  intros Hsole. rewrite Hreason.
  split; [destruct Hkind as [-> | ->]; reflexivity|].
  split.
  { replace ("at temporary " +:+ kind +:+ " breakpoint " +:+ pretty (number bp))
      with (("at temporary " +:+ kind +:+ " breakpoint ") +:+ pretty (number bp))
      by (destruct Hkind as [-> | ->]; reflexivity).
    apply str_contains_suffix. }
  split; [exact Hunreg|].
  destruct (delete_alone _ _ _ _ Hwf Hsole) as [Hb Hf].
  apply no_break_without_breakpoints;
    change (bpmgr (set_event (event c) (hit kind bp true c0)))
      with (bpmgr (hit kind bp true c0));
    rewrite Hmgr; [|assumption].
  rewrite (canonic_name_again sep unmap_file fs c fr); [assumption|].
  unfold hit. reflexivity.
Qed.

Lemma temporary_breakpoint_once_witness :
  temporary_once "/" None same_name failing_eval (core_with_bp temp_bp)
    (frame_in 1 "a.py" 10) temp_bp.
Proof.
  apply (temporary_breakpoint_once "/" None same_name failing_eval
           (core_with_bp temp_bp) (frame_in 1 "a.py" 10) temp_bp).
  - reflexivity.
  - intros key l b Hl Hin. simpl in Hl.
    apply lookup_singleton_Some in Hl as [<- <-].
    destruct Hin as [<-|[]]. reflexivity.
  - right. split; [left; discriminate|]. vm_compute. reflexivity.
  - split.
    + intros l Hl. vm_compute in Hl. injection Hl as <-. reflexivity.
    + intros fn l [].
Defined.

(** C4, as stated, fails for a temporary breakpoint whose condition cannot
    be evaluated: the event hits it, but the reason has no "temporary"
    qualifier and the breakpoint stays. *)
Lemma temporary_breakpoint_counterexample :
  temporary temp_cond_bp = true /\
  hits "/" None same_name failing_eval (core_with_bp temp_cond_bp)
    (frame_in 1 "a.py" 10) temp_cond_bp /\
  ~ temporary_once "/" None same_name failing_eval (core_with_bp temp_cond_bp)
      (frame_in 1 "a.py" 10) temp_cond_bp.
Proof.
  split; [reflexivity|]. split.
  - split; vm_compute; reflexivity.
  - intros (H & _). vm_compute in H. discriminate H.
Qed.

End DispatchProperties.

(** * Properties of the command loop *)
Section LoopProperties.
Import CmdProc Looping.

Variable shlex_tokens : string -> outcome (list string).
Variable mfuel : nat.
Variable e : env.

Lemma run_command_quit cmd_obj args current p q :
  run cmd_obj args (set_current_command current p)
    = Exc DebuggerQuitException q ->
  run_command cmd_obj args current p = Exc DebuggerQuitException q.
Proof. intros H. unfold run_command. rewrite H. reflexivity. Qed.

Lemma run_command_internal_error cmd_obj args current p err q :
  run cmd_obj args (set_current_command current p) = Exc err q ->
  err <> DebuggerQuitException -> is_Exception err = true ->
  run_command cmd_obj args current p
  = Ret (Continue current) (errmsg ("INTERNAL ERROR: " +:+ format_exc err) q).
Proof.
  intros H Hne Hex. unfold run_command. rewrite H.
  destruct err; try reflexivity; try discriminate Hex. contradiction.
Qed.

(** The quit signal leaves the [for] loop over the commands of a line. *)
Lemma line_dispatches_quit args_list current p cmd_obj args current' p' q :
  line_dispatches mfuel e args_list current p cmd_obj args current' p' ->
  run cmd_obj args (set_current_command current' p')
    = Exc DebuggerQuitException q ->
  for_args mfuel e args_list current p = Exc DebuggerQuitException q.
Proof.
  intros Hd Hrun. induction Hd as
    [rest current p cmd_obj args current' p' _ IH
    |w ws rest current p cmd_obj args current' p' Hprep
    |w ws rest current p current1 p1 cmd_obj args current' p' Hone _ IH].
  - simpl. apply IH. exact Hrun.
  - change (for_args mfuel e ((w :: ws) :: rest) current p)
      with (do (f, p1) <- one_command mfuel e (w :: ws) current p;
            match f with
            | Return v => Ret v p1
            | Continue current0 => for_args mfuel e rest current0 p1
            end).
    unfold one_command. rewrite Hprep. cbn [bind].
    rewrite (run_command_quit _ _ _ _ _ Hrun). reflexivity.
  - change (for_args mfuel e ((w :: ws) :: rest) current p)
      with (do (f, p1) <- one_command mfuel e (w :: ws) current p;
            match f with
            | Return v => Ret v p1
            | Continue current0 => for_args mfuel e rest current0 p1
            end).
    rewrite Hone. cbn [bind]. apply IH. exact Hrun.
Qed.

(** The quit signal leaves the command loop, given passes enough to get to
    the command. *)
Lemma loop_dispatches_quit p cmd_obj args current p' q :
  loop_dispatches shlex_tokens mfuel e p cmd_obj args current p' ->
  run cmd_obj args (set_current_command current p')
    = Exc DebuggerQuitException q ->
  exists n, forall fuel, (n <= fuel)%nat ->
    command_loop shlex_tokens mfuel fuel e p = Exc DebuggerQuitException q.
Proof.
  intros Hd Hrun. induction Hd as
    [p b p1 line p2 args_list cmd_obj args current p' Hh Hn Hl Hs Hline
    |p p2 cmd_obj args current p' Hpass _ IH].
  - exists 1%nat. intros fuel Hfuel.
    destruct fuel as [|fuel]; [lia|]. cbn [command_loop].
    unfold one_pass, process_command. rewrite Hh. cbn [bind].
    rewrite Hn. cbn [bind].
    unfold is_command_line in Hl. apply andb_true_iff in Hl as [Hl1 Hl2].
    apply negb_true_iff in Hl1, Hl2. rewrite Hl1, Hl2, Hs.
    rewrite (line_dispatches_quit _ _ _ _ _ _ _ _ Hline Hrun). reflexivity.
  - destruct (IH Hrun) as [n Hn]. exists (S n). intros fuel Hfuel.
    destruct fuel as [|fuel]; [lia|]. cbn [command_loop].
    destruct Hpass as [p v p2 Hone Hstay|p p2 Hone Heof].
    + rewrite Hone, Hstay. apply Hn. lia.
    + rewrite Hone, Heof. apply Hn. lia.
Qed.

(** C7: the quit signal always propagates out of the command-processing
    loop.  When the loop gets to run a command whose [run] raises
    [DebuggerQuitException], the dispatch code re-raises it, and so do the
    loop and [process_commands] (given fuel for the passes before it); any
    other exception of class [Exception] is logged as an internal error and
    the loop goes on. *)
Theorem quit_signal_propagates (p : proc) (cmd_obj : command)
    (args : list string) (current : string) (p' : proc) :
  loop_dispatches shlex_tokens mfuel e p cmd_obj args current p' ->
  (forall q,
     run cmd_obj args (set_current_command current p')
       = Exc DebuggerQuitException q ->
     run_command cmd_obj args current p' = Exc DebuggerQuitException q /\
     exists n, forall fuel, (n <= fuel)%nat ->
       command_loop shlex_tokens mfuel fuel e p = Exc DebuggerQuitException q /\
       forall p0, enters_loop e p0 p ->
         process_commands shlex_tokens mfuel fuel e p0
           = Exc DebuggerQuitException q) /\
  (forall err q,
     run cmd_obj args (set_current_command current p') = Exc err q ->
     err <> DebuggerQuitException -> is_Exception err = true ->
     run_command cmd_obj args current p'
     = Ret (Continue current)
           (errmsg ("INTERNAL ERROR: " +:+ format_exc err) q)).
Proof.
  intros Hd. split.
  - intros q Hrun. split; [apply run_command_quit; exact Hrun|].
    destruct (loop_dispatches_quit _ _ _ _ _ _ Hd Hrun) as [n Hn].
    exists n. intros fuel Hfuel. split; [apply Hn; exact Hfuel|].
    intros p0 (p2 & Hpre & ->). unfold process_commands.
    rewrite Hpre. cbn [bind]. rewrite (Hn fuel Hfuel). reflexivity.
  - intros err q. apply run_command_internal_error.
Qed.

End LoopProperties.

Section LoopExamples.
Import CmdProc Looping.

Lemma quit_signal_propagates_witness :
  exists q, execution_status q = "Quit command" /\
    exists n, forall fuel, (n <= fuel)%nat ->
      process_commands word_tokens 5 fuel session_env
        (session ["broken ;; other"; "q"])
      = Exc DebuggerQuitException q.
Proof.
  set (p0 := session ["broken ;; other"; "q"]).
  eassert (D : loop_dispatches word_tokens 5 session_env
                 (set_continue_running false (prologue p0))
                 Quit.QuitCommand ["q"] "q" _).
  { eapply loop_later.
    - eapply pass_on; [vm_compute; reflexivity|reflexivity].
    - eapply loop_here.
      + reflexivity.
      + vm_compute. reflexivity.
      + reflexivity.
      + vm_compute. reflexivity.
      + apply line_here. vm_compute. reflexivity. }
  destruct (quit_signal_propagates word_tokens 5 session_env _ _ _ _ _ D)
    as [T _].
  destruct (T _ eq_refl) as [_ [n Hn]].
  eexists. split; [|exists n; intros fuel Hfuel].
  2: { apply (Hn fuel Hfuel). exists (prologue p0). split; reflexivity. }
  reflexivity.
Defined.

(** Macro expansion never assigns to the command queue. *)
Lemma expand_macros_keeps_queue fuel args current p r p' :
  expand_macros fuel args current p = Ret r p' ->
  cmd_queue p' = cmd_queue p.
Proof.
  revert args current p.
  induction fuel as [|fuel IH]; intros args current p H; [discriminate H|].
  simpl in H. destruct args as [|name rest].
  { injection H as _ <-. reflexivity. }
  destruct (macros (cfg p) !! name) as [m|].
  2: { injection H as _ <-. reflexivity. }
  assert (Hq : cmd_queue (if debugmacro (cfg p)
                          then emit (PrintVal (match m rest with
                                               | Returns v => v
                                               | Raises _ => PyNone
                                               end)) p
                          else p) = cmd_queue p)
    by (destruct (debugmacro (cfg p)); reflexivity).
  destruct (m rest) as [v|err].
  - destruct v as [| | |s|xs].
    + injection H as _ <-. exact Hq.
    + injection H as _ <-. exact Hq.
    + injection H as _ <-. exact Hq.
    + apply IH in H. rewrite H. exact Hq.
    + destruct (negb (forallb is_str xs)); [discriminate H|].
      destruct xs as [|[| | |first|] others]; try discriminate H.
      apply IH in H. rewrite H. exact Hq.
  - destruct err; try discriminate H. injection H as _ <-. reflexivity.
Qed.

(** C8: the code at the failing input.  The macro [both] expands to the
    list [["first", "second"]].  The processor runs "first" and leaves the
    queue empty, so the next pass reads "other" from the interface and
    "second" is never run. *)
Theorem macro_list_rest_dropped :
  exists p1 p2,
    process_command word_tokens 5 session_env (session ["both"; "other"])
      = Ret (PyBool false) p1 /\
    cmd_queue p1 = [] /\
    out p1 = [WriteLine "first"] /\
    process_command word_tokens 5 session_env p1 = Ret (PyBool false) p2 /\
    out p2 = [WriteLine "first"; WriteLine "other"].
Proof.
  eexists. eexists. split; [vm_compute; reflexivity|].
  split; [reflexivity|]. split; [reflexivity|].
  split; [vm_compute; reflexivity|]. reflexivity.
Qed.

End LoopExamples.

(** * Properties of the frame functions *)
Section StackProperties.
Import Stack MathicsStack.

(** Induction along the [f_back] chain of a frame. *)
Lemma frame_chain_ind (P : frame -> Prop) :
  (forall fr, f_back fr = None -> P fr) ->
  (forall fr b, f_back fr = Some b -> P b -> P fr) ->
  forall fr, P fr.
Proof.
  intros H0 HS. fix IH 1. intros [id c l [b|]].
  - apply (HS _ b); [reflexivity|apply IH].
  - apply H0. reflexivity.
Qed.

Lemma count_frames_from_shift fr k :
  count_frames_from fr k = count_frames_from fr 0 + k.
Proof.
  revert k. induction fr as [fr Hb|fr b Hb IH] using frame_chain_ind; intros k;
    destruct fr as [id c l bk]; simpl in Hb; subst bk; simpl.
  - lia.
  - rewrite (IH (k + 1)), (IH (0 + 1)). lia.
Qed.

Lemma count_frames_from_positive fr : 1 <= count_frames_from fr 0.
Proof.
  induction fr as [fr Hb|fr b Hb IH] using frame_chain_ind;
    destruct fr as [id c l bk]; simpl in Hb; subst bk; simpl.
  - lia.
  - rewrite count_frames_from_shift. lia.
Qed.

Lemma count_frames_caller fr count_start :
  count_frames (Some fr) count_start
    = count_frames (f_back fr) 0 + 1 - count_start /\
  0 <= count_frames (f_back fr) 0.
Proof.
  destruct fr as [id c l [b|]]; simpl.
  - rewrite (count_frames_from_shift b (_ + 1)).
    pose proof (count_frames_from_positive b).
    change (- 0) with 0. lia.
  - lia.
Qed.

(** X1: [count_frames] of a frame is one more than [count_frames] of its
    caller (which is 0 when there is no caller), less [count_start]; so it
    is never below [1 - count_start]. *)
Theorem count_frames_depth (fr : frame) (count_start : Z) :
  count_frames (Some fr) count_start
    = count_frames (f_back fr) 0 + 1 - count_start /\
  1 - count_start <= count_frames (Some fr) count_start.
Proof.
  destruct (count_frames_caller fr count_start) as [E H].
  split; [exact E|]. rewrite E. lia.
Qed.

Lemma walk_back_length fr :
  Z.of_nat (length (walk_back fr)) = count_frames (Some fr) 0.
Proof.
  induction fr as [fr Hb|fr b Hb IH] using frame_chain_ind;
    destruct fr as [id c l bk]; simpl in Hb; subst bk.
  - reflexivity.
  - change (walk_back (Frame id c l (Some b)))
      with ((Frame id c l (Some b), l) :: walk_back b).
    destruct (count_frames_caller (Frame id c l (Some b)) 0) as [E _].
    rewrite E. simpl f_back. rewrite <- IH. simpl length. lia.
Qed.

(** X2: the stack that [get_mathics_stack] builds for a frame has as many
    entries as [count_frames] counts, the index it returns is that of the
    last entry, and this entry is the frame it was called with, at its
    current line; without a frame the stack is empty and the index 0. *)
Theorem get_mathics_stack_current (fr : frame) :
  let stack := fst (get_mathics_stack (Some fr)) in
  let i := snd (get_mathics_stack (Some fr)) in
  Z.of_nat (length stack) = count_frames (Some fr) 0 /\
  i = count_frames (Some fr) 0 - 1 /\
  stack !! Z.to_nat i = Some (fr, f_lineno fr) /\
  get_mathics_stack None = ([], 0).
Proof.
  cbv zeta. unfold get_mathics_stack. cbn [fst snd].
  rewrite length_reverse.
  pose proof (walk_back_length fr) as Hlen.
  destruct (count_frames_caller fr 0) as [Hd Hpos].
  split; [exact Hlen|]. split; [lia|]. split; [|reflexivity].
  rewrite reverse_lookup by lia.
  replace (length (walk_back fr) - S (Z.to_nat
             (Z.max 0 (Z.of_nat (length (walk_back fr)) - 1))))%nat
    with 0%nat by lia.
  destruct fr as [id c l bk]. reflexivity.
Qed.

Lemma walk_back_linked fr k newer older :
  walk_back fr !! k = Some newer -> walk_back fr !! S k = Some older ->
  f_back (fst newer) = Some (fst older).
Proof.
  revert k.
  induction fr as [fr Hb|fr b Hb IH] using frame_chain_ind; intros k;
    destruct fr as [id c l bk]; simpl in Hb; subst bk.
  - simpl. intros _ H. discriminate H.
  - change (walk_back (Frame id c l (Some b)))
      with ((Frame id c l (Some b), l) :: walk_back b).
    destruct k as [|k].
    + intros H1 H2. injection H1 as <-. simpl in H2. simpl.
      destruct b as [id' c' l' bk']. simpl in H2. injection H2 as <-.
      reflexivity.
    + intros H1 H2. apply (IH k); assumption.
Qed.

Lemma walk_back_last fr x :
  last (walk_back fr) = Some x -> f_back (fst x) = None.
Proof.
  induction fr as [fr Hb|fr b Hb IH] using frame_chain_ind;
    destruct fr as [id c l bk]; simpl in Hb; subst bk.
  - simpl. intros H. injection H as <-. reflexivity.
  - change (walk_back (Frame id c l (Some b)))
      with ((Frame id c l (Some b), l) :: walk_back b).
    intros H. apply IH. destruct (walk_back b) eqn:E; [|exact H].
    destruct b; discriminate E.
Qed.

Lemma walk_back_lineno fr x : In x (walk_back fr) -> snd x = f_lineno (fst x).
Proof.
  induction fr as [fr Hb|fr b Hb IH] using frame_chain_ind;
    destruct fr as [id c l bk]; simpl in Hb; subst bk.
  - simpl. intros [<-|[]]. reflexivity.
  - change (walk_back (Frame id c l (Some b)))
      with ((Frame id c l (Some b), l) :: walk_back b).
    intros [<-|H]; [reflexivity|]. apply IH. exact H.
Qed.

(** X3: in the stack of [get_mathics_stack] every entry is the caller
    ([f_back]) of the entry after it, the entry at index 0 has no caller,
    and every entry carries the line its frame is at. *)
Theorem get_mathics_stack_linked (f : option frame) (k : nat)
    (older : frame * Z) :
  fst (get_mathics_stack f) !! k = Some older ->
  snd older = f_lineno (fst older) /\
  (k = 0%nat -> f_back (fst older) = None) /\
  (forall newer, fst (get_mathics_stack f) !! S k = Some newer ->
     f_back (fst newer) = Some (fst older)).
Proof.
  unfold get_mathics_stack. cbn [fst].
  destruct f as [fr|]; [|intros H; rewrite reverse_nil in H; discriminate H].
  intros H. apply reverse_lookup_Some in H as [H Hk].
  split; [|split].
  - apply (walk_back_lineno fr).
    apply list_elem_of_In. eapply list_elem_of_lookup_2. exact H.
  - intros ->. apply (walk_back_last fr).
    rewrite last_lookup.
    replace (Init.Nat.pred (length (walk_back fr)))
      with (length (walk_back fr) - 1)%nat by lia.
    exact H.
  - intros newer Hn. apply reverse_lookup_Some in Hn as [Hn Hk'].
    apply (walk_back_linked fr (length (walk_back fr) - S (S k))).
    + exact Hn.
    + replace (S (length (walk_back fr) - S (S k)))
        with (length (walk_back fr) - S k)%nat by lia.
      exact H.
Qed.

Lemma get_mathics_stack_linked_witness :
  let inner := Engine.frame_at_depth 2 "a.py" 7 in
  let older := (Engine.frame_at_depth 1 "a.py" 1, 1) in
  snd older = f_lineno (fst older) /\
  (0%nat = 0%nat -> f_back (fst older) = None) /\
  (forall newer,
     fst (get_mathics_stack (Some inner)) !! 1%nat = Some newer ->
     f_back (fst newer) = Some (fst older)).
Proof.
  apply (get_mathics_stack_linked
           (Some (Engine.frame_at_depth 2 "a.py" 7)) 0
           (Engine.frame_at_depth 1 "a.py" 1, 1)).
  reflexivity.
Defined.

End StackProperties.

(** * More properties of the stop-decision engine *)
Section EngineAccounting.
Import Core Engine Auxiliary.

Context {frame_count : FrameCount}.

(** An event that is not qualifying leaves [step_ignore] alone. *)
Lemma is_stop_here_not_qualifying s fr ev :
  qualifying s fr ev = false ->
  step_ignore (snd (is_stop_here s fr ev)) = step_ignore s.
Proof.
  unfold qualifying, is_stop_here.
  destruct (different_line s && String.eqb ev "line" && same_position s fr);
    [reflexivity|].
  cbn [negb andb]. cbv zeta.
  set (s1 := set_last_position (f_lineno fr) (co_filename (f_code fr)) s).
  change (stop_level s1) with (stop_level s).
  destruct (stop_level s) as [lvl|].
  - destruct (recompute_level_fields s1 fr) as (E1&E2&_).
    destruct (Z.gtb_spec (last_level (recompute_level s1 fr)) lvl) as [Hgt|Hle].
    + intros _. exact E2.
    + replace (last_level (recompute_level s1 fr) <=? lvl) with true
        by (symmetry; apply Z.leb_le; lia).
      cbn [andb].
      destruct ((last_level (recompute_level s1 fr) =? lvl)
                && stop_on_finish (recompute_level s1 fr) && return_class ev).
      * intros _. exact E2.
      * cbn [negb andb]. intros Hf. apply negb_false_iff in Hf.
        rewrite check_stepping_filtered; [exact E2|].
        rewrite E1. exact Hf.
  - cbn [andb]. intros Hf. apply negb_false_iff in Hf.
    rewrite check_stepping_filtered; [reflexivity|exact Hf].
Qed.

Lemma count_qualifying_nonneg s evs : 0 <= count_qualifying s evs.
Proof.
  revert s. induction evs as [|[fr ev] evs IH]; intros s; simpl; [lia|].
  specialize (IH (snd (is_stop_here s fr ev))).
  destruct (qualifying s fr ev); lia.
Qed.

(** X4: over any sequence of events, of whatever kind and depth, the
    engine takes one off [step_ignore] for each qualifying event until it
    reaches 0, and never changes it otherwise: afterwards [step_ignore] is
    [max(0, N - q)] for [q] qualifying events; a negative [step_ignore]
    stays as it is. *)
Theorem step_ignore_accounting (s : stop_state) (evs : list (frame * string)) :
  step_ignore (final_state s evs) =
    if step_ignore s <? 0 then step_ignore s
    else Z.max 0 (step_ignore s - count_qualifying s evs).
Proof.
  revert s. induction evs as [|[fr ev] evs IH]; intros s; simpl.
  - destruct (Z.ltb_spec (step_ignore s) 0); lia.
  - rewrite IH.
    pose proof (count_qualifying_nonneg (snd (is_stop_here s fr ev)) evs) as Hc.
    destruct (qualifying s fr ev) eqn:Hq.
    + destruct (is_stop_here_qualifying s fr ev Hq) as (_ & Hi & _).
      rewrite Hi.
      destruct (Z.gtb_spec (step_ignore s) 0);
        destruct (Z.ltb_spec (step_ignore s) 0);
        destruct (Z.ltb_spec (step_ignore s - 1) 0); lia.
    + rewrite (is_stop_here_not_qualifying s fr ev Hq).
      destruct (Z.ltb_spec (step_ignore s) 0); lia.
Qed.

(** X5: [is_stop_here] changes [stop_reason] exactly when it decides to
    stop, and then to one of its two reasons: the return that ends a
    [finish], or a stepping statement. *)
Theorem stop_reason_only_on_stop (s : stop_state) (fr : frame) (ev : string) :
  let r := is_stop_here s fr ev in
  (fst r = false -> stop_reason (snd r) = stop_reason s) /\
  (fst r = true ->
     stop_reason (snd r) = "in return for 'finish' command" \/
     stop_reason (snd r) = "at a stepping statement").
Proof.
  assert (Hcheck : forall s0,
    (fst (check_stepping s0 ev) = false ->
     stop_reason (snd (check_stepping s0 ev)) = stop_reason s0) /\
    (fst (check_stepping s0 ev) = true ->
     stop_reason (snd (check_stepping s0 ev)) = "at a stepping statement")).
  { intros s0. unfold check_stepping.
    destruct (step_next_stop_cases s0 ev)
      as [[_ E]|[(_&_&E)|[(_&_&E)|(_&_&E)]]];
      rewrite E; simpl; split; intros H; try discriminate H; reflexivity. }
  cbv zeta. unfold is_stop_here.
  destruct (different_line s && String.eqb ev "line" && same_position s fr).
  { simpl. split; [reflexivity|discriminate]. }
  set (s1 := set_last_position (f_lineno fr) (co_filename (f_code fr)) s).
  change (stop_level s1) with (stop_level s).
  destruct (stop_level s) as [lvl|].
  - destruct (recompute_level_fields s1 fr) as (_&_&_&_&_&_&_&E8).
    destruct (last_level (recompute_level s1 fr) >? lvl).
    { simpl. split; [intros _; exact E8|discriminate]. }
    destruct ((last_level (recompute_level s1 fr) =? lvl)
              && stop_on_finish (recompute_level s1 fr) && return_class ev).
    { simpl. split; [discriminate|auto]. }
    destruct (Hcheck (recompute_level s1 fr)) as [H1 H2].
    split; [intros H; rewrite (H1 H); exact E8|auto].
  - destruct (Hcheck s1) as [H1 H2].
    split; [intros H; rewrite (H1 H); reflexivity|auto].
Qed.

End EngineAccounting.

(** * More properties of breakpoints and dispatch *)
Section DispatchFilters.
Import BreakpointManager Core Dispatching Auxiliary.

Lemma hit_effects kind bp del c :
  let c1 := hit kind bp del c in
  event c1 = Some "brkpt" /\
  current_bp c1 = Some bp /\
  bpmgr c1 = (if del then delete_breakpoint bp (bpmgr c) else bpmgr c) /\
  step_ignore (engine c1) = step_ignore (engine c) /\
  arg c1 = arg c.
Proof. cbv zeta. unfold hit. destruct del; simpl; auto 10. Qed.

(** X6: the only attribute of the core that [is_break_here] changes
    without reporting a hit (also when it raises [IndexError]) is the cache
    of file names, which [canonic] fills; on a hit it sets [event] to
    "brkpt" and [current_bp] to the breakpoint, keeps [step_ignore], and
    changes the breakpoint table only by deleting that breakpoint, and only
    when it is temporary. *)
Theorem is_break_here_effects
    (sep : ascii) (unmap_file : option (string -> string))
    (fs : FileNames.file_system)
    (py_eval : string -> frame -> outcome pyval)
    (c : core) (fr : frame) :
  let r := is_break_here sep unmap_file fs py_eval c fr in
  let cached :=
    snd (FileNames.canonic sep unmap_file fs (co_filename (f_code fr))
           (file_names c)) in
  file_names (snd r) = cached /\
  (fst r <> Returns true -> snd r = set_file_names cached c) /\
  (fst r = Returns true ->
     event (snd r) = Some "brkpt" /\
     step_ignore (engine (snd r)) = step_ignore (engine c) /\
     exists bp, current_bp (snd r) = Some bp /\
       (bpmgr (snd r) = bpmgr c \/
        temporary bp = true /\
        bpmgr (snd r) = delete_breakpoint bp (bpmgr c))).
Proof.
  cbv zeta.
  set (c0 := set_file_names
               (snd (FileNames.canonic sep unmap_file fs
                       (co_filename (f_code fr)) (file_names c))) c).
  change (snd (FileNames.canonic sep unmap_file fs (co_filename (f_code fr))
                 (file_names c)))
    with (file_names c0).
  pose (effects := fun r : outcome bool * core =>
    file_names (snd r) = file_names c0 /\
    (fst r <> Returns true -> snd r = c0) /\
    (fst r = Returns true ->
     event (snd r) = Some "brkpt" /\
     step_ignore (engine (snd r)) = step_ignore (engine c) /\
     exists bp, current_bp (snd r) = Some bp /\
       (bpmgr (snd r) = bpmgr c \/
        temporary bp = true /\
        bpmgr (snd r) = delete_breakpoint bp (bpmgr c)))).
  change (effects (is_break_here sep unmap_file fs py_eval c fr)).
  assert (Hhit : forall kind bp del,
            (del = true -> temporary bp = true) ->
            effects (Returns true, hit kind bp del c0)).
  { intros kind bp del Hdel. unfold effects. cbn [fst snd].
    destruct (hit_effects kind bp del c0) as (E1 & E2 & E3 & E4 & _).
    change (bpmgr c0) with (bpmgr c) in E3.
    change (engine c0) with (engine c) in E4.
    split; [unfold hit; destruct del; reflexivity|].
    split; [intros H; contradiction H; reflexivity|].
    intros _. split; [exact E1|]. split; [exact E4|].
    exists bp. split; [exact E2|]. rewrite E3.
    destruct del; [right; auto|left; reflexivity]. }
  assert (Hmiss : forall o : outcome bool, o <> Returns true ->
            effects (o, c0)).
  { intros o Ho. unfold effects. cbn [fst snd]. split; [reflexivity|].
    split; [reflexivity|]. intros H. contradiction. }
  rewrite is_break_here_after_canonic. cbv zeta.
  change (snd (canonic sep unmap_file fs (co_filename (f_code fr)) c)) with c0.
  assert (Hline : effects
    (if bool_decide ((canonic_name sep unmap_file fs c fr, f_lineno fr)
                     ∈ dom (bplist (bpmgr c)))
     then
       match find_bp py_eval (bpmgr c) (canonic_name sep unmap_file fs c fr)
               (f_lineno fr) fr with
       | (Some bp, clear_bp) =>
           (Returns true, hit "line" bp (clear_bp && temporary bp) c0)
       | (None, _) => (Returns false, c0)
       end
     else (Returns false, c0))).
  { destruct (bool_decide _); [|apply Hmiss; discriminate].
    destruct (find_bp _ _ _ _ _) as [[bp|] clear_bp];
      [|apply Hmiss; discriminate].
    apply Hhit. intros H. apply andb_true_iff in H as [_ H]. exact H. }
  destruct (bool_decide (event c = Some "call")); [|exact Hline].
  destruct (scan_fnlist _ _) as [[|bp rest]|]; [| |exact Hline].
  - apply Hmiss. discriminate.
  - apply Hhit. auto.
Qed.


(** The gates of [trace_dispatch] for an event type without one. *)
Lemma dispatch_gates_unfiltered py_eval event_processor event_filters
    log c fr ev a :
  condition_holds py_eval c fr = true ->
  traced c = true ->
  event_filters !! ev = None ->
  dispatch_gates py_eval event_processor event_filters log c fr ev a
  = hand_over event_processor log (set_arg a c) fr ev a.
Proof.
  intros Hcond Htr Hflt.
  unfold dispatch_gates. unfold condition_holds in Hcond.
  unfold traced in Htr.
  destruct (events (dbg_settings c)) as [trace_event_set|]; [|discriminate].
  rewrite Htr, Hflt. cbn [negb].
  destruct (truthy_str (until_condition c)); [|reflexivity].
  destruct (matches_condition py_eval c fr) as [v|]; [|discriminate].
  rewrite Hcond. reflexivity.
Qed.



(** X8: a traced event whose type has no entry in [event_filters] (the
    Python events line, call, return, ...) is always handed to the command
    processor once the "run until" gate is passed: [trace_dispatch] does
    not consult [step_ignore], [stop_level] or the breakpoints, whatever
    their values. *)
Theorem unfiltered_event_handed_over
    (py_eval : string -> frame -> outcome pyval)
    (event_processor : frame -> string -> pyarg -> core -> outcome pyval * core)
    (event_filters : gmap string (list string))
    (c : core) (fr : frame) (ev : string) (a : pyarg) :
  excluded c fr = false ->
  echo_fires (set_event (Some ev) c) = false ->
  condition_holds py_eval (set_event (Some ev) c) fr = true ->
  traced (set_event (Some ev) c) = true ->
  event_filters !! ev = None ->
  let d := trace_dispatch py_eval event_processor event_filters c fr ev a in
  d_effects d = [ProcessorCall fr ev a] /\
  d_core d = snd (event_processor fr ev a (set_arg a (set_event (Some ev) c))) /\
  d_token d =
    match fst (event_processor fr ev a (set_arg a (set_event (Some ev) c))) with
    | Returns v => Returns (TokValue v)
    | Raises e => Raises e
    end.
Proof.
  intros Hex Hecho Hcond Htr Hflt. cbv zeta. unfold trace_dispatch.
  unfold excluded in Hex. rewrite Hex.
  unfold echo_fires in Hecho. rewrite Hecho.
  rewrite (dispatch_gates_unfiltered _ _ _ _ _ _ _ _ Hcond Htr Hflt).
  unfold hand_over.
  destruct (event_processor fr ev a (set_arg a (set_event (Some ev) c)))
    as [[v|e] c'];
    simpl; auto.
Qed.

Lemma unfiltered_event_handed_over_witness :
  d_effects (trace_dispatch failing_eval resuming_processor some_filters
               (set_engine (init_stop_state 5) fresh_core)
               (frame_in 1 "a.py" 10) "line" (ArgValue PyNone))
  = [ProcessorCall (frame_in 1 "a.py" 10) "line" (ArgValue PyNone)].
Proof.
  apply (unfiltered_event_handed_over failing_eval resuming_processor
           some_filters (set_engine (init_stop_state 5) fresh_core)
           (frame_in 1 "a.py" 10) "line" (ArgValue PyNone));
    vm_compute; reflexivity.
Defined.





End DispatchFilters.

(** * More properties of the command processor *)
Section ProcessorProperties.
Import CmdProc Looping Auxiliary.

Local Abbreviation no_separator :=
  (fun g : list string => str_in ";;" g = false).

Lemma append_to_last_tail (f : list string -> list string) rest a :
  (forall g, f (g ++ [a]) = f g ++ [a]) ->
  rest <> [] ->
  flat_map f (append_to_last rest a) = flat_map f rest ++ [a].
Proof.
  intros Hf. induction rest as [|g rest IH]; [contradiction|]. intros _.
  destruct rest as [|g' rest].
  - simpl. rewrite Hf, !app_nil_r. reflexivity.
  - change (append_to_last (g :: g' :: rest) a)
      with (g :: append_to_last (g' :: rest) a).
    change (flat_map f (g :: append_to_last (g' :: rest) a))
      with (f g ++ flat_map f (append_to_last (g' :: rest) a)).
    rewrite IH by discriminate.
    change (flat_map f (g :: g' :: rest))
      with (f g ++ flat_map f (g' :: rest)).
    rewrite <- app_assoc. reflexivity.
Qed.

Lemma append_to_last_props acc a :
  acc <> [] -> String.eqb ";;" a = false -> Forall no_separator acc ->
  append_to_last acc a <> [] /\
  join_groups (append_to_last acc a) = join_groups acc ++ [a] /\
  Forall no_separator (append_to_last acc a) /\
  length (append_to_last acc a) = length acc.
Proof.
  intros Hne Ha Hall.
  assert (Hlen : forall l, length (append_to_last l a) = length l).
  { induction l as [|g [|g' l] IH]; [reflexivity|reflexivity|].
    change (append_to_last (g :: g' :: l) a)
      with (g :: append_to_last (g' :: l) a).
    cbn [length]. rewrite IH. reflexivity. }
  assert (Hsep : forall l, Forall no_separator l ->
                           Forall no_separator (append_to_last l a)).
  { induction l as [|g [|g' l] IH]; intros Hl.
    - constructor.
    - constructor; [|constructor]. inversion Hl as [|? ? Hg _]; subst.
      unfold str_in in *. rewrite existsb_app, Hg. cbn [existsb orb].
      rewrite Ha. reflexivity.
    - change (append_to_last (g :: g' :: l) a)
        with (g :: append_to_last (g' :: l) a).
      inversion Hl; subst. constructor; auto. }
  split; [|split; [|split]].
  - intros E. apply (f_equal (@length _)) in E. rewrite Hlen in E.
    destruct acc; [contradiction|discriminate].
  - destruct acc as [|g [|g' rest]]; [contradiction| |].
    + simpl. rewrite !app_nil_r. reflexivity.
    + change (append_to_last (g :: g' :: rest) a)
        with (g :: append_to_last (g' :: rest) a).
      unfold join_groups.
      rewrite (append_to_last_tail (fun g => ";;" :: g)) by
        (try discriminate; intros; reflexivity).
      rewrite app_assoc. reflexivity.
  - apply Hsep. exact Hall.
  - apply Hlen.
Qed.

Lemma arg_split_fold args : forall acc,
  acc <> [] -> Forall no_separator acc ->
  let r := fold_left
             (fun args_list arg =>
                if String.eqb ";;" arg then args_list ++ [[]]
                else append_to_last args_list arg) args acc in
  r <> [] /\ join_groups r = join_groups acc ++ args /\
  Forall no_separator r /\
  length r = (length acc + length (List.filter (String.eqb ";;") args))%nat.
Proof.
  induction args as [|a args IH]; intros acc Hne Hall; cbv zeta.
  - simpl. rewrite app_nil_r. auto with arith.
  - cbn [fold_left List.filter].
    destruct (String.eqb ";;" a) eqn:Ha.
    + apply String.eqb_eq in Ha. subst a.
      destruct (IH (acc ++ [[]])) as (H1 & H2 & H3 & H4).
      { destruct acc; discriminate. }
      { apply Forall_app. split; [exact Hall|]. repeat constructor. }
      split; [exact H1|]. split; [|split; [exact H3|]].
      * rewrite H2. destruct acc as [|g rest]; [contradiction|].
        simpl. rewrite flat_map_app. simpl. rewrite <- !app_assoc.
        reflexivity.
      * rewrite H4, length_app. simpl. lia.
    + destruct (append_to_last_props acc a Hne Ha Hall) as (P1 & P2 & P3 & P4).
      destruct (IH (append_to_last acc a) P1 P3) as (H1 & H2 & H3 & H4).
      split; [exact H1|]. split; [|split; [exact H3|]].
      * rewrite H2, P2, <- app_assoc. reflexivity.
      * rewrite H4, P4. reflexivity.
Qed.

(** X11: [arg_split] loses nothing but the separators: putting its groups
    together again with ";;" between them gives back the words of the
    lexer, no group holds a ";;", and there is one group more than there
    are ";;" words (so the result is never empty). *)
Theorem arg_split_round_trip
    (shlex_tokens : string -> outcome (list string))
    (s : string) (args : list string) :
  shlex_tokens s = Returns args ->
  exists args_list,
    arg_split shlex_tokens s = Returns args_list /\
    join_groups args_list = args /\
    Forall (fun g => str_in ";;" g = false) args_list /\
    length args_list = S (length (List.filter (String.eqb ";;") args)).
Proof.
  intros Hlex. unfold arg_split. rewrite Hlex.
  destruct (arg_split_fold args [[]]) as (_ & H2 & H3 & H4).
  { discriminate. }
  { repeat constructor. }
  eexists. split; [reflexivity|]. auto.
Qed.

Lemma arg_split_round_trip_witness :
  exists args_list,
    arg_split word_tokens "list 5 ;; quit" = Returns args_list /\
    join_groups args_list = ["list"; "5"; ";;"; "quit"] /\
    Forall (fun g => str_in ";;" g = false) args_list /\
    length args_list = 2%nat.
Proof.
  apply (arg_split_round_trip word_tokens "list 5 ;; quit"
           ["list"; "5"; ";;"; "quit"]).
  vm_compute. reflexivity.
Defined.

Lemma lower_char_idem a : lower_char (lower_char a) = lower_char a.
Proof. destruct a as [[] [] [] [] [] [] [] []]; reflexivity. Qed.

Lemma lower_idem s : lower (lower s) = lower s.
Proof.
  induction s as [|a s IH]; simpl; [reflexivity|].
  rewrite lower_char_idem, IH. reflexivity.
Qed.

(** X12: [resolve_name] compares command names without regard to case and
    lets them win over aliases; what it returns is always in lower case;
    it returns [None] exactly for a name that, lower-cased, is no command
    and, as typed, is no alias. *)
Theorem resolve_name_cases (e : env) (p : proc) (command_name : string) :
  (lower command_name ∈ dom (commands e) ->
   resolve_name e p command_name = Some (lower command_name)) /\
  (forall r, resolve_name e p command_name = Some r -> lower r = r) /\
  (resolve_name e p command_name = None <->
   (lower command_name ∉ dom (commands e)) /\
   aliases (cfg p) !! command_name = None).
Proof.
  unfold resolve_name. split; [|split].
  - intros H. rewrite (bool_decide_eq_true_2 _ H). reflexivity.
  - intros r. destruct (bool_decide _).
    + intros H. injection H as <-. apply lower_idem.
    + destruct (aliases (cfg p) !! command_name); [|discriminate].
      intros H. injection H as <-. apply lower_idem.
  - destruct (decide (lower command_name ∈ dom (commands e))) as [Hin|Hnin].
    + rewrite (bool_decide_eq_true_2 _ Hin). split; [discriminate|].
      intros [H _]. contradiction.
    + rewrite (bool_decide_eq_false_2 _ Hnin).
      destruct (aliases (cfg p) !! command_name).
      * split; [discriminate|]. intros [_ H]. discriminate H.
      * split; auto.
Qed.

(** X13: [run_hooks] over two lists of hooks run one after the other:
    the second list is run, in the state the first left, only when no hook
    of the first returned a true value; a hook that returns a true value or
    raises ends the run. *)
Theorem run_hooks_app (hooks1 hooks2 : list hook) (p : proc) :
  run_hooks (hooks1 ++ hooks2) p =
    bind (run_hooks hooks1 p)
      (fun stop p1 => if stop then Ret true p1 else run_hooks hooks2 p1).
Proof.
  revert p. induction hooks1 as [|h hooks1 IH]; intros p; [reflexivity|].
  simpl. destruct (h p) as [v p1|err p1|]; [|reflexivity|reflexivity].
  simpl. destruct (truthy v); [reflexivity|]. apply IH.
Qed.

(** X14: [ok_for_running] answers [True] exactly when the execution status
    is one the command allows, a frame is there if the command needs one,
    and the number of arguments is within the command's bounds; then it
    writes nothing.  When it answers [False] it writes one message and
    changes nothing else. *)
Theorem ok_for_running_verdict (cmd_obj : command) (name : string)
    (nargs : Z) (p : proc) :
  let r := ok_for_running cmd_obj name nargs p in
  (fst r = true <->
     (forall allowed, execution_set cmd_obj = Some allowed ->
        str_in (execution_status p) allowed = true) /\
     (need_stack cmd_obj = true -> proc_frame (cfg p) <> None) /\
     min_args cmd_obj <= nargs /\
     (forall most, max_args cmd_obj = Some most -> nargs <= most)) /\
  (fst r = true -> snd r = p) /\
  (fst r = false -> exists o, snd r = emit o p).
Proof.
  cbv zeta.
  assert (Hfst : fst (ok_for_running cmd_obj name nargs p) =
    negb (match execution_set cmd_obj with
          | Some allowed => negb (str_in (execution_status p) allowed)
          | None => false
          end)
    && negb (bool_decide (proc_frame (cfg p) = None) && need_stack cmd_obj)
    && negb (nargs <? min_args cmd_obj)
    && negb (match max_args cmd_obj with
             | Some most => nargs >? most
             | None => false
             end)).
  { unfold ok_for_running.
    destruct (match execution_set cmd_obj with
              | Some allowed => negb (str_in (execution_status p) allowed)
              | None => false
              end); [reflexivity|].
    destruct (bool_decide (proc_frame (cfg p) = None) && need_stack cmd_obj);
      [reflexivity|].
    destruct (nargs <? min_args cmd_obj); [reflexivity|].
    destruct (max_args cmd_obj) as [most|]; [|reflexivity].
    destruct (nargs >? most); reflexivity. }
  split; [|split].
  - rewrite Hfst, !andb_true_iff, !negb_true_iff. split.
    + intros (((H1 & H2) & H3) & H4). split; [|split; [|split]].
      * intros allowed Ha. rewrite Ha in H1.
        apply negb_false_iff in H1. exact H1.
      * intros Hneed Hnone. rewrite Hneed, andb_true_r in H2.
        apply bool_decide_eq_false in H2. contradiction.
      * apply Z.ltb_ge. exact H3.
      * intros most Hm. rewrite Hm in H4.
        rewrite Z.gtb_ltb in H4. apply Z.ltb_ge. exact H4.
    + intros (H1 & H2 & H3 & H4). split; [split; [split|]|].
      * destruct (execution_set cmd_obj) as [allowed|]; [|reflexivity].
        rewrite (H1 allowed eq_refl). reflexivity.
      * destruct (need_stack cmd_obj); [|apply andb_false_r].
        rewrite andb_true_r. apply bool_decide_eq_false. auto.
      * apply Z.ltb_ge. exact H3.
      * destruct (max_args cmd_obj) as [most|]; [|reflexivity].
        rewrite Z.gtb_ltb. apply Z.ltb_ge. auto.
  - unfold ok_for_running.
    destruct (match execution_set cmd_obj with
              | Some allowed => negb (str_in (execution_status p) allowed)
              | None => false
              end); [discriminate|].
    destruct (bool_decide (proc_frame (cfg p) = None) && need_stack cmd_obj);
      [discriminate|].
    destruct (nargs <? min_args cmd_obj); [discriminate|].
    destruct (max_args cmd_obj) as [most|]; [|reflexivity].
    destruct (nargs >? most); [discriminate|reflexivity].
  - unfold ok_for_running, errmsg.
    destruct (match execution_set cmd_obj with
              | Some allowed => negb (str_in (execution_status p) allowed)
              | None => false
              end); [eauto|].
    destruct (bool_decide (proc_frame (cfg p) = None) && need_stack cmd_obj);
      [eauto|].
    destruct (nargs <? min_args cmd_obj); [eauto|].
    destruct (max_args cmd_obj) as [most|]; [|discriminate].
    destruct (nargs >? most); [eauto|discriminate].
Qed.


Lemma read_command_top p below i line rest :
  intf p = below ++ [i] -> input i = line :: rest ->
  read_command p
  = Ret line (set_intf (below ++ [Interface rest (interactive i) (output i)]) p).
Proof.
  intros Hi Hin. unfold read_command, top_intf.
  rewrite Hi, last_snoc, Hin, removelast_last. reflexivity.
Qed.

(** X15: an empty line typed at an interactive interface takes
    [last_command], as it is stored, for the command text, and
    [process_command] then does what it does for any input that delivers
    this text; when the text of [last_command] has no white space at its
    ends (it is its own [strip]), this is exactly what [process_command]
    does when the text is typed in place of the empty line. *)
Theorem empty_line_repeats
    (shlex_tokens : string -> outcome (list string))
    (fuel : nat) (e : env) (p : proc) (below : list interface)
    (line : string) (rest : list string) (out_channel : bool)
    (previous : string) :
  cmd_queue p = [] ->
  intf p = below ++ [Interface (line :: rest) true out_channel] ->
  strip line = EmptyString ->
  last_command p = Some previous ->
  let p1 := set_intf (below ++ [Interface rest true out_channel]) p in
  next_command p = Ret (Some previous) p1 /\
  (forall p2, next_command p2 = Ret (Some previous) p1 ->
     process_command shlex_tokens fuel e p
     = process_command shlex_tokens fuel e p2) /\
  (strip previous = previous ->
   process_command shlex_tokens fuel e p
   = process_command shlex_tokens fuel e
       (set_intf (below ++ [Interface (previous :: rest) true out_channel]) p)).
Proof.
  intros Hq Hi Hline Hlast p1.
  assert (Htop : top_interactive p1 = true).
  { unfold top_interactive, top_intf. subst p1. cbn [intf set_intf].
    rewrite last_snoc. reflexivity. }
  assert (E1 : next_command p = Ret (Some previous) p1).
  { unfold next_command. rewrite Hq.
    rewrite (read_command_top p below _ line rest Hi eq_refl).
    cbn [bind interactive output]. fold p1. rewrite Hline, Htop.
    cbn [String.eqb andb]. exact (f_equal (fun c => Ret c p1) Hlast). }
  split; [exact E1|]. split.
  - intros p2 E2. unfold process_command. rewrite E1, E2. reflexivity.
  - intros Hprev.
    assert (E2 : next_command
                   (set_intf (below ++ [Interface (previous :: rest) true out_channel]) p)
                 = Ret (Some previous) p1).
    { unfold next_command. cbn [cmd_queue set_intf]. rewrite Hq.
      rewrite (read_command_top
                 (set_intf (below ++ [Interface (previous :: rest) true out_channel]) p)
                 below (Interface (previous :: rest) true out_channel)
                 previous rest eq_refl eq_refl).
      cbn [bind interactive output].
      change (set_intf (below ++ [Interface rest true out_channel])
                (set_intf (below ++ [Interface (previous :: rest) true out_channel]) p))
        with p1.
      rewrite Hprev, Htop, andb_true_r.
      destruct (String.eqb_spec EmptyString previous) as [<-|_]; [|reflexivity].
      exact (f_equal (fun c => Ret c p1) Hlast). }
    unfold process_command. rewrite E1, E2. reflexivity.
Qed.

Lemma empty_line_repeats_witness :
  process_command word_tokens 5 session_env
    (set_last_command (Some "first") (session [" "; "other"]))
  = process_command word_tokens 5 session_env
      (set_intf [Interface ["first"; "other"] true true]
         (set_last_command (Some "first") (session [" "; "other"]))).
Proof.
  apply (empty_line_repeats word_tokens 5 session_env
           (set_last_command (Some "first") (session [" "; "other"]))
           [] " " ["other"] true "first"); reflexivity.
Defined.

(** X16: a macro whose expansion starts with its own name is expanded
    again and again: the loop of [process_command] that expands macros does
    not end, whatever number of rounds it is given. *)
Theorem recursive_macro_diverges (fuel : nat) (macro_cmd_name : string)
    (m : macro) (expansion : string) (words rest : list string)
    (current : string) (p : proc) :
  macros (cfg p) !! macro_cmd_name = Some m ->
  (forall args, m args = Returns (PyStr expansion)) ->
  split expansion = macro_cmd_name :: words ->
  expand_macros fuel (macro_cmd_name :: rest) current p = OutOfFuel.
Proof.
  intros Hm Hexp Hsplit. revert rest current p Hm.
  induction fuel as [|fuel IH]; intros rest current p Hm; [reflexivity|].
  cbn [expand_macros]. unfold macro in *. rewrite Hm, Hexp, Hsplit.
  apply IH. destruct (debugmacro (cfg p)); exact Hm.
Qed.

Lemma recursive_macro_diverges_witness :
  expand_macros 1000 ["again"; "now"] "again now" again_session = OutOfFuel.
Proof.
  apply (recursive_macro_diverges 1000 "again" again "again please"
           ["please"] ["now"] "again now" again_session).
  - reflexivity.
  - intros args. reflexivity.
  - vm_compute. reflexivity.
Defined.

Lemma one_pass_eof shlex_tokens mfuel e p below i :
  precmd_hooks e = [] -> cmd_queue p = [] ->
  intf p = below ++ [i] -> input i = [] ->
  one_pass shlex_tokens mfuel e p = Exc EOFError p.
Proof.
  intros Hh Hq Hi Hin. unfold one_pass. rewrite Hh. cbn [run_hooks bind].
  unfold process_command, next_command, read_command, top_intf.
  rewrite Hq, Hi, last_snoc, Hin. reflexivity.
Qed.

(** X17: when every interface on the stack has run out of input (and no
    command is queued), the command loop pops the interfaces one by one
    down to the bottom one, resetting [last_command] to the empty string,
    and then leaves: by [SystemExit], after writing "Leaving", when the
    bottom interface has an output channel, else by ending the loop. *)
Theorem exhausted_interfaces_exit
    (shlex_tokens : string -> outcome (list string))
    (mfuel fuel : nat) (e : env) (p : proc)
    (bottom : interface) (above : list interface) :
  precmd_hooks e = [] ->
  cmd_queue p = [] ->
  intf p = bottom :: above ->
  Forall (fun i => input i = []) (bottom :: above) ->
  (length above < fuel)%nat ->
  let p' := match above with
            | [] => p
            | _ => set_last_command (Some EmptyString) (set_intf [bottom] p)
            end in
  command_loop shlex_tokens mfuel fuel e p
  = if output bottom then Exc SystemExit (emit (WriteLine "Leaving") p')
    else Ret tt p'.
Proof.
  intros Hh. revert fuel p.
  induction above as [|top above IH] using rev_ind;
    intros fuel p Hq Hi Hall Hfuel; cbv zeta.
  - destruct fuel as [|fuel]; [simpl in Hfuel; lia|].
    cbn [command_loop].
    rewrite (one_pass_eof shlex_tokens mfuel e p [] bottom Hh Hq Hi)
      by (inversion Hall; assumption).
    unfold on_eof, top_intf. rewrite Hi. cbn [length Nat.ltb Nat.leb last].
    destruct (output bottom); reflexivity.
  - destruct fuel as [|fuel]; [simpl in Hfuel; lia|].
    rewrite length_app in Hfuel. simpl in Hfuel.
    cbn [command_loop].
    assert (Htop : input top = []).
    { inversion Hall as [|? ? _ Hrest]; subst.
      apply Forall_app in Hrest as [_ Hrest]. inversion Hrest; assumption. }
    rewrite (one_pass_eof shlex_tokens mfuel e p (bottom :: above) top Hh Hq Hi Htop).
    assert (Hlen : (1 <? length (intf p))%nat = true).
    { rewrite Hi. cbn [length]. rewrite length_app. simpl.
      apply Nat.ltb_lt. lia. }
    unfold on_eof. rewrite Hlen.
    assert (Hpop : intf (pop_intf p) = bottom :: above).
    { unfold pop_intf. cbn [intf set_last_command set_intf]. rewrite Hi.
      change (bottom :: above ++ [top]) with ((bottom :: above) ++ [top]).
      apply removelast_last. }
    rewrite (IH fuel (pop_intf p) Hq Hpop).
    + assert (E : match above with
                  | [] => pop_intf p
                  | _ :: _ => set_last_command (Some EmptyString)
                                (set_intf [bottom] (pop_intf p))
                  end
                  = set_last_command (Some EmptyString) (set_intf [bottom] p)).
      { destruct above as [|x above]; [|reflexivity].
        unfold pop_intf. rewrite Hi. reflexivity. }
      cbv zeta. rewrite E.
      destruct (above ++ [top]) eqn:Eapp; [|reflexivity].
      destruct above; discriminate Eapp.
    + inversion Hall as [|? ? Hb Hrest]; subst.
      apply Forall_app in Hrest as [Hrest _]. constructor; assumption.
    + lia.
Qed.

Lemma exhausted_interfaces_exit_witness :
  command_loop word_tokens 5 2 session_env exhausted_session
  = Exc SystemExit
      (emit (WriteLine "Leaving")
         (set_last_command (Some EmptyString)
            (set_intf [Interface [] true true] exhausted_session))).
Proof.
  apply (exhausted_interfaces_exit word_tokens 5 2 session_env
           exhausted_session (Interface [] true true)
           [Interface [] false false]).
  - reflexivity.
  - reflexivity.
  - reflexivity.
  - repeat constructor.
  - simpl. lia.
Defined.

(** X18: the command loop ends without an exception only for a reason:
    the pass it ends with returned a true value or left [continue_running]
    set, or it met the end of input on the only interface left, which has
    no output channel. *)
Theorem command_loop_leaves
    (shlex_tokens : string -> outcome (list string))
    (mfuel fuel : nat) (e : env) (p p' : proc) :
  command_loop shlex_tokens mfuel fuel e p = Ret tt p' ->
  (exists p0 v, one_pass shlex_tokens mfuel e p0 = Ret v p' /\
     (truthy v = true \/ continue_running p' = true)) \/
  (exists p0 i, one_pass shlex_tokens mfuel e p0 = Exc EOFError p' /\
     intf p' = [i] /\ output i = false).
Proof.
  revert p. induction fuel as [|fuel IH]; intros p; [discriminate|].
  cbn [command_loop].
  destruct (one_pass shlex_tokens mfuel e p) as [v p2|err p2|] eqn:Hpass;
    [| |discriminate].
  - destruct (truthy v || continue_running p2) eqn:Hleave; [|apply IH].
    intros H. injection H as <-. left. exists p, v. split; [exact Hpass|].
    apply orb_true_iff. exact Hleave.
  - destruct err; try discriminate.
    unfold on_eof.
    destruct (1 <? length (intf p2))%nat eqn:Hlen; [apply IH|].
    unfold top_intf. destruct (intf p2) as [|i [|i' rest]] eqn:Hi.
    + discriminate.
    + cbn [last]. destruct (output i) eqn:Hout; [discriminate|].
      intros H. injection H as <-. right. exists p, i. auto.
    + discriminate Hlen.
Qed.

Lemma command_loop_leaves_witness :
  (exists p0 v, one_pass word_tokens 5 session_env p0 = Ret v silent_session /\
     (truthy v = true \/ continue_running silent_session = true)) \/
  (exists p0 i, one_pass word_tokens 5 session_env p0
                = Exc EOFError silent_session /\
     intf silent_session = [i] /\ output i = false).
Proof.
  apply (command_loop_leaves word_tokens 5 1 session_env
           silent_session silent_session).
  reflexivity.
Defined.

End ProcessorProperties.

(** * Properties of the quit command *)
Section QuitProperties.
Import CmdProc Quit Auxiliary.

Lemma raise_in_others_cases mythread threading_list p :
  (exists p', raise_in_others mythread threading_list p = Ret tt p') \/
  (exists e p', raise_in_others mythread threading_list p = Exc e p' /\
     (e = DebuggerQuitException \/ e = ValueError \/ e = SystemError)).
Proof.
  revert p. induction threading_list as [|t rest IH]; intros p.
  - left. eexists. reflexivity.
  - cbn [raise_in_others].
    destruct (Nat.eqb (t_id t) mythread); [apply IH|].
    unfold ctype_async_raise.
    destruct (t_active t); cbn [negb]; [|right; eauto 6].
    destruct (t_async_ret t =? 0); [right; eauto 6|].
    destruct (t_async_ret t >? 1); [right; eauto 7|].
    cbn [bind]. apply IH.
Qed.

(** X19: the quit command never returns to the command loop: whatever the
    threads are, [run] ends by raising, and what it raises is the quit
    signal, or [ValueError] (a thread that is not active), [SystemError]
    (the interpreter reports more than one thread changed) or [IndexError]
    (no thread at all). *)
Theorem quit_always_raises (args : list string) (p : proc) :
  exists e p', Quit.run args p = Exc e p' /\
    (e = DebuggerQuitException \/ e = ValueError \/ e = SystemError \/
     e = IndexError).
Proof.
  assert (Hthreaded : exists e p', threaded_quit args p = Exc e p' /\
            (e = DebuggerQuitException \/ e = ValueError \/ e = SystemError \/
             e = IndexError)).
  { unfold threaded_quit.
    destruct (raise_in_others_cases (current_thread (cfg p)) (threads (cfg p)) p)
      as [[p' E]|(e & p' & E & He)]; rewrite E; cbn [bind].
    - eauto 6.
    - exists e, p'. split; [reflexivity|]. tauto. }
  unfold Quit.run.
  destruct (Nat.eqb (length (threads (cfg p))) 1 || from_ipython (cfg p));
    [|exact Hthreaded].
  destruct (threads (cfg p)) as [|t rest] eqn:Ht; [eauto 8|].
  destruct (String.eqb (t_name t) "MainThread"); [|exact Hthreaded].
  unfold nothread_quit. eauto 6.
Qed.

Lemma raise_in_others_signals mythread threading_list p :
  Forall (signalable mythread) threading_list ->
  exists p',
    raise_in_others mythread threading_list p = Ret tt p' /\
    out p' = out p ++ List.map AsyncRaise (others mythread threading_list) /\
    execution_status p' = execution_status p /\
    cmd_queue p' = cmd_queue p /\ intf p' = intf p.
Proof.
  intros Hall. revert p.
  induction Hall as [|t rest Ht Hrest IH]; intros p.
  - exists p. cbn. rewrite app_nil_r. auto.
  - cbn [raise_in_others]. unfold others. cbn [List.filter].
    destruct (Nat.eqb_spec (t_id t) mythread) as [Heq|Hne]; cbn [negb].
    + apply IH.
    + destruct (Ht Hne) as [Hact Hret].
      unfold ctype_async_raise. rewrite Hact, Hret. cbn [negb Z.eqb Z.gtb Z.compare Pos.compare bind].
      destruct (IH (emit (AsyncRaise (t_id t)) p)) as (p' & E & Hout & Hst & Hq & Hi).
      exists p'. split; [exact E|]. split; [|auto].
      rewrite Hout. cbn [out emit List.map]. rewrite <- app_assoc. reflexivity.
Qed.

(** X20: when every other thread is active and the interpreter reports
    one thread changed for each, [threaded_quit] raises the quit signal in
    each of the other threads, in the order of [threading.enumerate()] and
    never in the current thread, and then raises it in the current thread;
    unlike [nothread_quit] it leaves [execution_status] as it is. *)
Theorem threaded_quit_signals_others (args : list string) (p : proc) :
  Forall (signalable (current_thread (cfg p))) (threads (cfg p)) ->
  exists p',
    threaded_quit args p = Exc DebuggerQuitException p' /\
    out p' = out p ++ List.map AsyncRaise
                        (others (current_thread (cfg p)) (threads (cfg p))) /\
    execution_status p' = execution_status p.
Proof.
  intros Hall. unfold threaded_quit.
  destruct (raise_in_others_signals _ _ p Hall) as (p' & E & Hout & Hst & _).
  rewrite E. cbn [bind]. eauto.
Qed.

Lemma threaded_quit_signals_others_witness :
  exists p',
    threaded_quit ["quit"] threaded_session = Exc DebuggerQuitException p' /\
    out p' = [AsyncRaise 1; AsyncRaise 2] /\
    execution_status p' = "Running".
Proof.
  apply (threaded_quit_signals_others ["quit"] threaded_session).
  repeat constructor; intros H; try reflexivity; contradiction H; reflexivity.
Defined.

End QuitProperties.

(** * Properties of the integer arguments *)
Section NumberProperties.
Import CmdProc Numbers.

Variable py_eval : string -> outcome pyval.
Variable py_int : pyval -> outcome Z.
Variable caught : exn -> bool.

Lemma get_int_noerr_raises arg e :
  get_int_noerr py_eval py_int caught arg = Raises e -> caught e = false.
Proof.
  unfold get_int_noerr.
  destruct (py_eval arg) as [v|e1].
  - destruct (py_int v) as [z|e2]; [discriminate|].
    destruct (caught e2) eqn:H; [discriminate|]. intros E. injection E as <-.
    exact H.
  - destruct (caught e1) eqn:H; [discriminate|]. intros E. injection E as <-.
    exact H.
Qed.

(** X21: [get_an_int] returns an integer only when the argument evaluates
    to it and it lies within the bounds, and then writes nothing; when it
    returns [None] it has written exactly one message; an exception it does
    not catch leaves the processor as it was.  A bound is enforced only if
    it is not zero: with [min_value = 0] every negative value is accepted
    as with no lower bound at all. *)
Theorem get_an_int_bounds (arg : string) (msg_on_error : option string)
    (min_value max_value : option Z) (p : proc) :
  match get_an_int py_eval py_int caught arg msg_on_error
          min_value max_value p with
  | Ret (Some v) p' =>
      p' = p /\
      get_int_noerr py_eval py_int caught arg = Returns (Some v) /\
      (forall m, min_value = Some m -> m <> 0 -> m <= v) /\
      (forall m, max_value = Some m -> m <> 0 -> v <= m)
  | Ret None p' => exists m, p' = errmsg m p
  | Exc e p' => p' = p /\ caught e = false
  | OutOfFuel => False
  end /\
  get_an_int py_eval py_int caught arg msg_on_error (Some 0) max_value p
  = get_an_int py_eval py_int caught arg msg_on_error None max_value p.
Proof.
  split; [|reflexivity].
  unfold get_an_int.
  destruct (get_int_noerr py_eval py_int caught arg) as [[v|]|e] eqn:E.
  - destruct (truthy_int min_value && (v <? default 0 min_value)) eqn:Hmin;
      [eauto|].
    destruct (truthy_int max_value && (v >? default 0 max_value)) eqn:Hmax;
      [eauto|].
    split; [reflexivity|]. split; [reflexivity|]. split.
    + intros m -> Hm. change (default 0 (Some m)) with m in Hmin.
      cbn [truthy_int] in Hmin. apply Z.eqb_neq in Hm. rewrite Hm in Hmin. cbn [negb andb] in Hmin.
      apply Z.ltb_ge. exact Hmin.
    + intros m -> Hm. change (default 0 (Some m)) with m in Hmax.
      cbn [truthy_int] in Hmax. apply Z.eqb_neq in Hm. rewrite Hm in Hmax. cbn [negb andb] in Hmax.
      rewrite Z.gtb_ltb in Hmax. apply Z.ltb_ge. exact Hmax.
  - destruct (truthy_str msg_on_error); eauto.
  - split; [reflexivity|]. apply (get_int_noerr_raises arg). exact E.
Qed.

(** X22: [get_int] without an argument returns the default; with one it
    never returns a value below [min_value]; but a value above [at_most] is
    returned all the same, after the message that says it is too large. *)
Theorem get_int_at_most_reported (arg : option string)
    (min_value default_value : Z) (cmdname : option string)
    (at_most : option Z) (p : proc) :
  match get_int py_eval py_int caught arg min_value default_value
          cmdname at_most p with
  | Ret (Some v) p' =>
      (arg = None /\ v = default_value /\ p' = p) \/
      (arg <> None /\ min_value <= v)
  | Ret None p' => arg <> None /\ exists m, p' = errmsg m p
  | Exc e p' => p' = p /\ caught e = false
  | OutOfFuel => False
  end /\
  (forall a v most,
     arg = Some a ->
     get_int_noerr py_eval py_int caught a = Returns (Some v) ->
     at_most = Some most -> most <> 0 -> min_value <= v -> most < v ->
     exists m, get_int py_eval py_int caught arg min_value default_value
                 cmdname at_most p = Ret (Some v) (errmsg m p)).
Proof.
  split.
  - unfold get_int. destruct arg as [a|]; [|left; auto].
    destruct (get_int_noerr py_eval py_int caught a) as [[v|]|e] eqn:E.
    + destruct (Z.ltb_spec v min_value).
      { destruct (truthy_str cmdname);
          (split; [discriminate|eauto]). }
      destruct (truthy_int at_most && (v >? default 0 at_most));
        [destruct (truthy_str cmdname)|];
        right; (split; [discriminate|assumption]).
    + destruct (truthy_str cmdname); (split; [discriminate|eauto]).
    + split; [reflexivity|]. apply (get_int_noerr_raises a). exact E.
  - intros a v most -> E -> Hne Hmin Hmost. unfold get_int. rewrite E.
    replace (v <? min_value) with false by (symmetry; apply Z.ltb_ge; lia).
    change (default 0 (Some most)) with most. cbn [truthy_int].
    replace (most =? 0) with false by (symmetry; apply Z.eqb_neq; exact Hne).
    replace (v >? most) with true by (symmetry; apply Z.gtb_lt; lia).
    cbn [negb andb]. destruct (truthy_str cmdname); eauto.
Qed.

End NumberProperties.

(** * Properties of what the processor sets up *)
Section StartupProperties.
Import CmdProc Startup Auxiliary.

(** X23: [queue_startfile], called for each file of a list, appends a
    [source] command for each readable file to the command queue, in the
    order of the list and after what was queued before; for each other file
    it writes one message; the interfaces are not touched. *)
Theorem queue_startfiles_in_order (expanduser : string -> string)
    (readable : string -> option bool) (initfile_list : list string)
    (p : proc) :
  let is_readable f := bool_decide (readable (expanduser f) = Some true) in
  let p' := queue_startfiles expanduser readable initfile_list p in
  cmd_queue p'
    = cmd_queue p ++ List.map (fun f => "source " +:+ expanduser f)
                       (List.filter is_readable initfile_list) /\
  length (out p')
    = (length (out p)
       + length (List.filter (fun f => negb (is_readable f)) initfile_list))%nat /\
  intf p' = intf p.
Proof.
  cbv zeta. revert p.
  induction initfile_list as [|f files IH]; intros p.
  - cbn. rewrite app_nil_r. auto.
  - unfold queue_startfiles in *. cbn [fold_left List.filter].
    destruct (IH (queue_startfile expanduser readable f p)) as (H1 & H2 & H3).
    rewrite H1, H2, H3. unfold queue_startfile.
    destruct (readable (expanduser f)) as [[|]|] eqn:Hr.
    + rewrite bool_decide_eq_true_2 by reflexivity.
      cbn [negb cmd_queue set_cmd_queue out intf List.map].
      rewrite <- app_assoc. auto.
    + rewrite bool_decide_eq_false_2 by discriminate.
      cbn [negb cmd_queue errmsg emit out intf length].
      rewrite length_app. cbn [length]. split; [reflexivity|].
      split; [lia|reflexivity].
    + rewrite bool_decide_eq_false_2 by discriminate.
      cbn [negb cmd_queue errmsg emit out intf length].
      rewrite length_app. cbn [length]. split; [reflexivity|].
      split; [lia|reflexivity].
Qed.

Lemma alias_fold_in (cmd_name : string) alias_names :
  forall (a : gmap string string) x,
  x ∈ alias_names \/ is_Some (a !! x) ->
  is_Some (fold_left (fun a alias_name => <[alias_name := cmd_name]> a)
             alias_names a !! x).
Proof.
  induction alias_names as [|n ns IH]; intros a x H; cbn [fold_left].
  - destruct H as [H|H]; [|exact H]. inversion H.
  - apply IH. destruct H as [H|H].
    + apply elem_of_cons in H as [->|H]; [|auto].
      right. rewrite lookup_insert_eq. eauto.
    + right. destruct (decide (n = x)) as [->|Hne].
      * rewrite lookup_insert_eq. eauto.
      * rewrite lookup_insert_ne by exact Hne. exact H.
Qed.

Lemma alias_fold_target (cmd_name : string) alias_names :
  forall (a : gmap string string) x target,
  fold_left (fun a alias_name => <[alias_name := cmd_name]> a)
    alias_names a !! x = Some target ->
  target = cmd_name \/ a !! x = Some target.
Proof.
  induction alias_names as [|n ns IH]; intros a x target H; cbn [fold_left] in H.
  - auto.
  - apply IH in H as [H|H]; [auto|].
    destruct (decide (n = x)) as [->|Hne].
    + rewrite lookup_insert_eq in H. injection H as <-. auto.
    + rewrite lookup_insert_ne in H by exact Hne. auto.
Qed.

(** What the loop of [_populate_cmd_lists] keeps true of the tables. *)
Lemma register_invariant cmd_instances :
  let t := fold_left register cmd_instances (Tables ∅ ∅ ∅) in
  (forall ci alias_names,
     In ci cmd_instances -> inst_aliases ci = Some alias_names ->
     inst_name ci ∈ dom (t_commands t) /\
     forall a, In a alias_names -> a ∈ dom (t_aliases t)) /\
  (forall a target, t_aliases t !! a = Some target ->
     target ∈ dom (t_commands t)) /\
  (forall n, n ∈ dom (t_commands t) ->
     exists ci, In ci cmd_instances /\ inst_name ci = n /\
                inst_aliases ci <> None).
Proof.
  induction cmd_instances as [|ci insts IH] using rev_ind; cbv zeta.
  - cbn. split; [intros ci names []|]. split.
    + intros a target H. rewrite lookup_empty in H. discriminate H.
    + intros n H. rewrite dom_empty in H. apply elem_of_empty in H.
      contradiction.
  - rewrite fold_left_app. cbn [fold_left].
    set (t := fold_left register insts (Tables ∅ ∅ ∅)) in *.
    cbv zeta in IH. destruct IH as (Ha & Hb & Hc).
    unfold register. destruct (inst_aliases ci) as [names|] eqn:Hal.
    + cbn [t_commands t_aliases]. split; [|split].
      * intros ci' names' Hin Hal'. apply in_app_or in Hin as [Hin|[<-|[]]].
        -- destruct (Ha ci' names' Hin Hal') as [H1 H2]. split.
           ++ apply dom_insert, elem_of_union. right. exact H1.
           ++ intros a Hain. apply elem_of_dom. apply alias_fold_in.
              right. apply elem_of_dom. apply H2. exact Hain.
        -- rewrite Hal in Hal'. injection Hal' as <-. split.
           ++ apply dom_insert, elem_of_union. left.
              apply elem_of_singleton. reflexivity.
           ++ intros a Hain. apply elem_of_dom. apply alias_fold_in.
              left. apply list_elem_of_In. exact Hain.
      * intros a target H. apply alias_fold_target in H as [->|H].
        -- apply dom_insert, elem_of_union. left.
           apply elem_of_singleton. reflexivity.
        -- apply dom_insert, elem_of_union. right. apply (Hb a). exact H.
      * intros n H. apply dom_insert in H.
        apply elem_of_union in H as [H|H].
        -- apply elem_of_singleton in H as ->. exists ci.
           split; [apply in_or_app; right; left; reflexivity|].
           split; [reflexivity|]. rewrite Hal. discriminate.
        -- destruct (Hc n H) as (ci' & Hin & Hn & Hne). exists ci'.
           split; [apply in_or_app; left; exact Hin|auto].
    + split; [|split].
      * intros ci' names' Hin Hal'. apply in_app_or in Hin as [Hin|[<-|[]]].
        -- apply (Ha ci' names' Hin Hal').
        -- rewrite Hal in Hal'. discriminate Hal'.
      * exact Hb.
      * intros n H. destruct (Hc n H) as (ci' & Hin & Hn & Hne). exists ci'.
        split; [apply in_or_app; left; exact Hin|auto].
Qed.

(** X24: the tables that [_populate_cmd_lists] builds are closed: every
    command object that has an [aliases] attribute is in [commands] under
    its name and each of its aliases is in [aliases]; every alias leads to
    a name that is in [commands]; and [commands] holds nothing else. *)
Theorem populate_cmd_lists_closed (cmd_instances : list cmd_instance) :
  let t := _populate_cmd_lists cmd_instances in
  (forall ci alias_names,
     In ci cmd_instances -> inst_aliases ci = Some alias_names ->
     inst_name ci ∈ dom (t_commands t) /\
     forall a, In a alias_names -> a ∈ dom (t_aliases t)) /\
  (forall a target, t_aliases t !! a = Some target ->
     target ∈ dom (t_commands t)) /\
  (forall n, n ∈ dom (t_commands t) ->
     exists ci, In ci cmd_instances /\ inst_name ci = n /\
                inst_aliases ci <> None).
Proof. exact (register_invariant cmd_instances). Qed.

(** X25: with the tables of [_populate_cmd_lists] and command names in
    lower case, every name that [resolve_name] returns is a key of
    [commands]: the lookup [self.commands[cmd_name]] that follows it in
    [process_command] cannot raise [KeyError]. *)
Theorem populated_names_resolve (cmd_instances : list cmd_instance)
    (e : env) (p : proc) (command_name resolved : string) :
  (forall ci, In ci cmd_instances -> lower (inst_name ci) = inst_name ci) ->
  commands e = t_commands (_populate_cmd_lists cmd_instances) ->
  aliases (cfg p) = t_aliases (_populate_cmd_lists cmd_instances) ->
  resolve_name e p command_name = Some resolved ->
  is_Some (commands e !! resolved).
Proof.
  intros Hlow Hc Ha. unfold resolve_name.
  destruct (register_invariant cmd_instances) as (_ & Hb & Hn).
  cbv zeta in Hb, Hn.
  destruct (bool_decide (lower command_name ∈ dom (commands e))) eqn:Hd.
  - intros H. injection H as <-. apply bool_decide_eq_true in Hd.
    apply elem_of_dom. exact Hd.
  - destruct (aliases (cfg p) !! command_name) as [target|] eqn:Ht;
      [|discriminate].
    intros H. injection H as <-. rewrite Ha in Ht.
    apply Hb in Ht. destruct (Hn target Ht) as (ci & Hin & Hname & _).
    rewrite <- Hname, (Hlow ci Hin), Hname. apply elem_of_dom.
    rewrite Hc. exact Ht.
Qed.

Lemma populated_names_resolve_witness :
  is_Some (commands (populated_env package_commands) !! "quit").
Proof.
  apply (populated_names_resolve package_commands
           (populated_env package_commands)
           (populated_session package_commands) "quit!" "quit").
  - intros ci [<-|[<-|[]]]; reflexivity.
  - reflexivity.
  - reflexivity.
  - vm_compute. reflexivity.
Defined.

End StartupProperties.

(** * Properties of the hook list *)
Section HookProperties.
Import Hooks.
Context {A : Type} `{EqDecision A}.

Lemma py_index_middle (x : A) l1 l2 :
  x ∉ l1 -> py_index x (l1 ++ x :: l2) = Some (length l1).
Proof.
  induction l1 as [|y l1 IH]; intros Hnin; cbn [app py_index length].
  - rewrite bool_decide_eq_true_2 by reflexivity. reflexivity.
  - apply not_elem_of_cons in Hnin as [Hne Hnin].
    rewrite bool_decide_eq_false_2 by exact Hne.
    rewrite (IH Hnin). reflexivity.
Qed.

Lemma py_insert_split position (x : A) l :
  exists l1 l2, l = l1 ++ l2 /\ py_insert position x l = l1 ++ x :: l2.
Proof.
  unfold py_insert. eexists _, _. split; [|reflexivity].
  symmetry. apply take_drop.
Qed.

(** X26: a hook that [add_preloop_hook] has added is removed again by
    [remove_preloop_hook], which gives back the list as it was, wherever
    the hook was inserted; a hook that is in the list already is not added
    a second time, so adding twice is the same as adding once. *)
Theorem add_then_remove_hook (preloop_hooks : list A) (hook : A)
    (position : Z) (nodups : bool) :
  let added := add_preloop_hook preloop_hooks hook position nodups in
  (fst added = true ->
   remove_preloop_hook (snd added) hook = (true, preloop_hooks)) /\
  (fst added = false -> snd added = preloop_hooks /\ hook ∈ preloop_hooks) /\
  add_preloop_hook (snd added) hook position nodups = (false, snd added).
Proof.
  cbv zeta.
  destruct (decide (hook ∈ preloop_hooks)) as [Hin|Hnin].
  - assert (E : add_preloop_hook preloop_hooks hook position nodups
                = (false, preloop_hooks)).
    { unfold add_preloop_hook. rewrite (bool_decide_eq_true_2 _ Hin).
      reflexivity. }
    rewrite E. cbn [fst snd]. rewrite E.
    split; [discriminate|]. split; auto.
  - destruct (py_insert_split position hook preloop_hooks)
      as (l1 & l2 & Hl & Hins).
    assert (E : add_preloop_hook preloop_hooks hook position nodups
                = (true, l1 ++ hook :: l2)).
    { unfold add_preloop_hook. rewrite (bool_decide_eq_false_2 _ Hnin), Hins.
      reflexivity. }
    rewrite E. cbn [fst snd]. split; [|split; [discriminate|]].
    + intros _. unfold remove_preloop_hook.
      rewrite py_index_middle.
      * rewrite delete_middle, Hl. reflexivity.
      * intros H1. apply Hnin. rewrite Hl. apply elem_of_app. auto.
    + unfold add_preloop_hook. rewrite bool_decide_eq_true_2; [reflexivity|].
      apply elem_of_app. right. left.
Qed.

(** X27: with the default position (-1) [add_preloop_hook] does not put
    the new hook at the end: it goes in front of the hook that was last,
    which stays last; only into an empty list does it go as the only
    hook. *)
Theorem add_preloop_hook_default_position (preloop_hooks : list A)
    (last_hook hook : A) (nodups : bool) :
  hook ∉ preloop_hooks ++ [last_hook] ->
  add_preloop_hook (preloop_hooks ++ [last_hook]) hook (-1) nodups
    = (true, preloop_hooks ++ [hook; last_hook]) /\
  add_preloop_hook [] hook (-1) nodups = (true, [hook]).
Proof.
  intros Hnin. split.
  - unfold add_preloop_hook. rewrite (bool_decide_eq_false_2 _ Hnin).
    unfold py_insert. rewrite length_app. cbn [length Z.ltb Z.compare].
    replace (Z.to_nat (Z.max 0 (-1 + Z.of_nat (length preloop_hooks + 1))))
      with (length preloop_hooks) by lia.
    rewrite take_app_length, drop_app_length. reflexivity.
  - unfold add_preloop_hook. rewrite bool_decide_eq_false_2 by inversion 1.
    reflexivity.
Qed.

End HookProperties.

Section HookExamples.
Import Hooks.

Lemma add_preloop_hook_default_position_witness :
  add_preloop_hook [1%nat; 2%nat] 3%nat (-1) true = (true, [1%nat; 3%nat; 2%nat]).
Proof.
  apply (add_preloop_hook_default_position [1%nat] 2%nat 3%nat true).
  intros H. apply elem_of_app in H as [H|H];
    apply list_elem_of_In in H; simpl in H; intuition discriminate.
Defined.

End HookExamples.

(** * Properties of canonic file names *)
Section FileNameProperties.
Import FileNames Auxiliary.

Lemma substring_prefix mid tail :
  substring 0 (String.length mid) (mid +:+ tail) = mid.
Proof.
  induction mid as [|a mid IH]; simpl.
  - destruct tail; reflexivity.
  - rewrite IH. reflexivity.
Qed.

Lemma length_append s1 s2 :
  String.length (s1 +:+ s2) = (String.length s1 + String.length s2)%nat.
Proof. induction s1 as [|a s1 IH]; simpl; [reflexivity|]. rewrite IH. reflexivity. Qed.

(** X28: [canonic] takes a name for one of Python's internal names, which
    it returns as it is without looking at the cache or the file system,
    exactly when the name is some text enclosed in angle brackets. *)
Theorem canonic_bracketed (sep : ascii) (unmap_file : option (string -> string))
    (fs : file_system) (filename : string) (st : names) :
  (is_bracketed filename = true <->
   exists mid, filename = "<" +:+ mid +:+ ">") /\
  (is_bracketed filename = true ->
   canonic sep unmap_file fs filename st = (filename, st)).
Proof.
  split.
  - unfold is_bracketed. split.
    + intros H. apply String.eqb_eq in H. eexists. exact H.
    + intros [mid ->]. apply String.eqb_eq.
      change ("<" +:+ mid +:+ ">") with (String "<" (mid +:+ ">")).
      cbn [String.length]. rewrite length_append. cbn [String.length].
      replace (S (String.length mid + 1) - 2)%nat with (String.length mid)
        by lia.
      change (substring 1 (String.length mid) (String "<" (mid +:+ ">")))
        with (substring 0 (String.length mid) (mid +:+ ">")).
      rewrite substring_prefix. reflexivity.
  - intros H. unfold canonic. rewrite H. reflexivity.
Qed.

(** X29: [canonic] answers from its cache: once a name has been resolved
    (to a path that is not the empty string), asking again gives the same
    answer and leaves the cache as it is, whatever the file system says by
    then (say after a change of the working directory). *)
Theorem canonic_cached (sep : ascii) (unmap_file : option (string -> string))
    (fs fs' : file_system) (filename : string) (st : names) :
  let first := canonic sep unmap_file fs filename st in
  filename_cache (snd first) !! filename <> Some EmptyString ->
  canonic sep unmap_file fs' filename (snd first) = first.
Proof.
  cbv zeta. destruct (is_bracketed filename) eqn:Hb.
  - assert (E : forall fs0, canonic sep unmap_file fs0 filename st
                            = (filename, st))
      by (intros fs0; unfold canonic; rewrite Hb; reflexivity).
    rewrite (E fs). cbn [snd]. intros _. apply E.
  - destruct (truthy_str (filename_cache st !! filename)) eqn:Hc.
    + destruct (filename_cache st !! filename) as [c|] eqn:Hl;
        [|discriminate Hc].
      assert (Hne : c <> EmptyString).
      { intros ->. discriminate Hc. }
      rewrite (canonic_hit sep unmap_file fs filename st c Hb Hl Hne).
      intros _. apply canonic_hit; assumption.
    + destruct (canonic_miss sep unmap_file fs filename st Hb Hc) as [c E].
      rewrite E. cbn [snd filename_cache]. rewrite lookup_insert_eq.
      intros Hne. apply canonic_hit.
      * exact Hb.
      * cbn [filename_cache]. apply lookup_insert_eq.
      * intros ->. contradiction Hne. reflexivity.
Qed.

Lemma canonic_cached_witness :
  canonic "/" None moved_files "prog.py"
    (snd (canonic "/" None work_files "prog.py" no_names))
  = canonic "/" None work_files "prog.py" no_names.
Proof.
  apply (canonic_cached "/" None work_files moved_files "prog.py" no_names).
  vm_compute. discriminate.
Defined.

End FileNameProperties.
